(** * Data collector of the AI firewall classification system

    A shallow embedding of [data_collector.py]: the probe executor
    [run_command], the text parsers ([parse_ping], [parse_nmap],
    [parse_hping3], [parse_hping3_rst], [parse_curl]), the per-host
    aggregator [collect_features], the dataset writer [write_csv] and the
    collection loop of [main].

    Modelling conventions.
    - A Python [str] is a [string]; a character is a code point below 256.
      On such text [\d] is [0-9], [\s] is the white space listed in
      [is_space], and lowering a character never produces an ASCII letter
      out of a non-ASCII one.
    - A Python [float] is the rational it denotes ([Q]); conversions from
      text are exact, and the two operations whose result depends on binary
      rounding ([round] and the printing of a float) are parameters of the
      sections that use them.
    - A Python [dict] with string keys is a [gmap string pyval].
    - A raised exception is the [Raise] branch of [result].
    - [print] calls only write diagnostics; they are modelled where a
      statement speaks of the log (the collection loop) and left out
      elsewhere. *)

From Stdlib Require Import ZArith QArith String Ascii List Lia Permutation DecimalString.
From stdpp Require Import gmap strings list fin_maps.

Open Scope string_scope.
Open Scope list_scope.

(** ** Python values and exceptions *)

Inductive exn :=
| ValueError
| ZeroDivisionError
| TypeError
| OtherException (msg : string).

Inductive result (A : Type) :=
| Ok (a : A)
| Raise (e : exn).
Arguments Ok {A} a.
Arguments Raise {A} e.

#[global] Instance result_ret : MRet result := fun A a => Ok a.
#[global] Instance result_bind : MBind result := fun A B f m =>
  match m with
  | Ok a => f a
  | Raise e => Raise e
  end.

(** The values stored in a feature dictionary. *)
Inductive pyval :=
| VNone
| VStr (s : string)
| VInt (n : Z)
| VFloat (q : Q).

(** Truth value of an object, as [if x:] and [not x] test it. *)
Definition truthy (v : pyval) : bool :=
  match v with
  | VNone => false
  | VStr s => negb (String.eqb s "")
  | VInt n => negb (n =? 0)%Z
  | VFloat q => negb (Qeq_bool q 0)
  end.

(** [if not output:] on an [Optional[str]]. *)
Definition not_output (output : option string) : bool :=
  match output with
  | None => true
  | Some s => String.eqb s ""
  end.

(** ** Characters and strings *)

Definition code (c : ascii) : N := N_of_ascii c.

Definition newline : ascii := ascii_of_N 10.

(** [\d] *)
Definition is_digit (c : ascii) : bool :=
  ((48 <=? code c) && (code c <=? 57))%N.

(** [\s]: tab, line feed, vertical tab, form feed, carriage return, the
    four separators 28-31, space, NEL and the no-break space. *)
Definition is_space (c : ascii) : bool :=
  (((9 <=? code c) && (code c <=? 13)) || ((28 <=? code c) && (code c <=? 32))
   || (code c =? 133) || (code c =? 160))%N.

(** [.] without DOTALL *)
Definition is_any (c : ascii) : bool := negb (code c =? 10)%N.

(** [str.lower] on one character: A-Z and the accented capitals. *)
Definition lower_char (c : ascii) : ascii :=
  if (((65 <=? code c) && (code c <=? 90))
      || ((192 <=? code c) && (code c <=? 222) && negb (code c =? 215)))%N
  then ascii_of_N (code c + 32)
  else c.

Definition chars (s : string) : list ascii := list_ascii_of_string s.
Definition text (l : list ascii) : string := string_of_list_ascii l.

Definition lower (s : string) : string := text (map lower_char (chars s)).

Fixpoint starts_with (needle hay : list ascii) : bool :=
  match needle, hay with
  | [], _ => true
  | _ :: _, [] => false
  | a :: needle', b :: hay' => Ascii.eqb a b && starts_with needle' hay'
  end.

(** [hay.find(needle)], counted from position [i] of the whole text. *)
Fixpoint find_from (needle hay : list ascii) (i : nat) : option nat :=
  if starts_with needle hay then Some i
  else match hay with
       | [] => None
       | _ :: hay' => find_from needle hay' (S i)
       end.

Definition find (needle hay : string) : option nat :=
  find_from (chars needle) (chars hay) 0.

(** [needle in hay] *)
Definition contains (needle hay : string) : bool :=
  bool_decide (is_Some (find needle hay)).

(** [int(s)] on the text of a [\d+] group. *)
Definition digit_value (c : ascii) : Z := Z.of_N (code c) - 48.

Definition int_of_digits (l : list ascii) : Z :=
  fold_left (fun acc c => 10 * acc + digit_value c)%Z l 0%Z.

Definition py_int (s : string) : result Z :=
  if bool_decide (chars s = []) || negb (forallb is_digit (chars s))
  then Raise ValueError
  else Ok (int_of_digits (chars s)).

(** [float(s)] on the text of a [\d+\.?\d*] or [[\d.]+] group: digits
    with at most one point and at least one digit; anything else such a
    group can hold (a lone point, two points) is a [ValueError]. *)
Fixpoint split_point (l : list ascii) : list ascii * option (list ascii) :=
  match l with
  | [] => ([], None)
  | c :: l' =>
      if Ascii.eqb c "." then ([], Some l')
      else let '(i, f) := split_point l' in (c :: i, f)
  end.

Definition py_float (s : string) : result Q :=
  let '(ip, fp) := split_point (chars s) in
  let fp := default [] fp in
  if forallb is_digit ip && forallb is_digit fp
     && negb (bool_decide (ip ++ fp = []))
  then Ok (Qred (inject_Z (int_of_digits (ip ++ fp))
                 / inject_Z (10 ^ Z.of_nat (length fp))%Z))
  else Raise ValueError.

(** [str(n)] for an [int]. *)
Definition py_str_int (n : Z) : string :=
  DecimalString.NilZero.string_of_int (Z.to_int n).

(** ** Regular expressions

    The patterns of the collector, matched the way Python's [re] does: a
    backtracking search for the leftmost match, alternatives tried left to
    right, greedy repetition longest first and lazy repetition shortest
    first. Repetition is only ever applied to one-character sets in the
    source, and at most one group is captured. *)

Inductive charset :=
| Digit        (* \d *)
| Space        (* \s *)
| AnyChar      (* . *)
| DigitOrDot.  (* [\d.] *)

Definition in_set (cs : charset) (c : ascii) : bool :=
  match cs with
  | Digit => is_digit c
  | Space => is_space c
  | AnyChar => is_any c
  | DigitOrDot => is_digit c || Ascii.eqb c "."
  end.

Inductive regex :=
| Empty                    (* the empty pattern *)
| Lit (c : ascii)          (* one literal character *)
| OneOf (cs : charset)     (* X *)
| Star (cs : charset)      (* X* *)
| Plus (cs : charset)      (* X+ *)
| LazyStar (cs : charset)  (* X*? *)
| Opt (r : regex)          (* r? *)
| Cat (r1 r2 : regex)      (* r1 r2 *)
| Alt (r1 r2 : regex)      (* r1|r2 *)
| Group (r : regex)        (* (r) *)
| Bol.                     (* ^ *)

Record flags := Flags { ignorecase : bool; multiline : bool }.

Definition IGNORECASE : flags := Flags true false.
Definition MULTILINE : flags := Flags false true.

(** A position in the subject: the characters already passed (latest
    first) and those still ahead. *)
Record cursor := Cursor { seen : list ascii; rest : list ascii }.

Definition lit_matches (fl : flags) (c x : ascii) : bool :=
  if ignorecase fl then Ascii.eqb (lower_char c) (lower_char x)
  else Ascii.eqb c x.

Definition at_line_start (fl : flags) (cur : cursor) : bool :=
  match seen cur with
  | [] => true
  | c :: _ => multiline fl && Ascii.eqb c newline
  end.

(** The text between two positions of the same subject. *)
Definition between (a b : cursor) : string :=
  text (take (length (rest a) - length (rest b)) (rest a)).

Section Matcher.
Context {A : Type}.
Variable fl : flags.

(** What remains to be matched after a sub-pattern: it receives the
    position reached and the text of the group captured so far. *)
Definition cont := cursor -> option string -> option A.

Fixpoint greedy (cs : charset) (sn rs : list ascii) (g : option string)
    (k : cont) : option A :=
  match rs with
  | c :: rs' =>
      if in_set cs c then
        match greedy cs (c :: sn) rs' g k with
        | Some a => Some a
        | None => k (Cursor sn rs) g
        end
      else k (Cursor sn rs) g
  | [] => k (Cursor sn rs) g
  end.

Fixpoint lazy (cs : charset) (sn rs : list ascii) (g : option string)
    (k : cont) : option A :=
  match k (Cursor sn rs) g with
  | Some a => Some a
  | None =>
      match rs with
      | c :: rs' => if in_set cs c then lazy cs (c :: sn) rs' g k else None
      | [] => None
      end
  end.

Definition one (p : ascii -> bool) (cur : cursor) (g : option string)
    (k : cont) : option A :=
  match rest cur with
  | c :: rs' => if p c then k (Cursor (c :: seen cur) rs') g else None
  | [] => None
  end.

Fixpoint rmatch (r : regex) (cur : cursor) (g : option string) (k : cont)
    : option A :=
  match r with
  | Empty => k cur g
  | Lit c => one (lit_matches fl c) cur g k
  | OneOf cs => one (in_set cs) cur g k
  | Star cs => greedy cs (seen cur) (rest cur) g k
  | Plus cs =>
      one (in_set cs) cur g (fun cur' g' => greedy cs (seen cur') (rest cur') g' k)
  | LazyStar cs => lazy cs (seen cur) (rest cur) g k
  | Opt r1 =>
      match rmatch r1 cur g k with
      | Some a => Some a
      | None => k cur g
      end
  | Cat r1 r2 => rmatch r1 cur g (fun cur' g' => rmatch r2 cur' g' k)
  | Alt r1 r2 =>
      match rmatch r1 cur g k with
      | Some a => Some a
      | None => rmatch r2 cur g k
      end
  | Group r1 => rmatch r1 cur g (fun cur' _ => k cur' (Some (between cur cur')))
  | Bol => if at_line_start fl cur then k cur g else None
  end.
End Matcher.

(** A match object: where the match starts and ends, and [group(1)]. *)
Record rmatch_obj := Match { m_start : cursor; m_end : cursor; m_group : option string }.

Definition match_at (fl : flags) (r : regex) (cur : cursor) : option rmatch_obj :=
  rmatch fl r cur None (fun cur' g => Some (Match cur cur' g)).

(** Leftmost match at or after a position. *)
Fixpoint search_from (fl : flags) (r : regex) (sn rs : list ascii)
    : option rmatch_obj :=
  match match_at fl r (Cursor sn rs) with
  | Some m => Some m
  | None =>
      match rs with
      | [] => None
      | c :: rs' => search_from fl r (c :: sn) rs'
      end
  end.

(** [re.search(pattern, s, flags)] *)
Definition re_search (r : regex) (s : string) (fl : flags) : option rmatch_obj :=
  search_from fl r [] (chars s).

(** [m.group(1)] of a pattern that has a group. *)
Definition group1 (m : rmatch_obj) : string := default "" (m_group m).

(** The number of non-overlapping matches [re.findall] returns, scanning
    left to right from the end of the previous match. No pattern of the
    collector matches the empty text; were a match empty, the scan here
    moves on by one character. Every round passes at least one character,
    so a budget of one more than the characters ahead is never exhausted. *)
Fixpoint count_matches (budget : nat) (fl : flags) (r : regex)
    (sn rs : list ascii) : nat :=
  match budget with
  | O => 0
  | S budget' =>
      match search_from fl r sn rs with
      | None => 0
      | Some m =>
          let e := m_end m in
          if bool_decide (length (rest e) < length (rest (m_start m))) then
            S (count_matches budget' fl r (seen e) (rest e))
          else
            match rest e with
            | [] => 1
            | c :: rs' => S (count_matches budget' fl r (c :: seen e) rs')
            end
      end
  end.

(** [len(re.findall(pattern, s, flags))] *)
Definition re_findall_len (r : regex) (s : string) (fl : flags) : nat :=
  count_matches (S (length (chars s))) fl r [] (chars s).

(** The subject ahead starts with the literal run [l], up to the case
    rule of the flags. *)
Fixpoint lit_prefix (fl : flags) (l rs : list ascii) : bool :=
  match l, rs with
  | [], _ => true
  | _ :: _, [] => false
  | c :: l', x :: rs' => lit_matches fl c x && lit_prefix fl l' rs'
  end.


(** A run of literal characters. *)
Fixpoint lit_chars (l : list ascii) : regex :=
  match l with
  | [] => Empty
  | c :: l' => Cat (Lit c) (lit_chars l')
  end.

Definition lit (s : string) : regex := lit_chars (chars s).

Declare Scope regex_scope.
Delimit Scope regex_scope with re.
Infix "·" := Cat (at level 40, left associativity) : regex_scope.

(** ** Arithmetic on floats *)

(** [a / b] on two [int]s. *)
Definition py_truediv (a b : Z) : result Q :=
  if (b =? 0)%Z then Raise ZeroDivisionError
  else Ok (inject_Z a / inject_Z b)%Q.

(** [min(a, b)] and [max(a, b)]: the first argument unless the second is
    strictly smaller (larger). *)
Definition py_min (a b : Q) : Q := if Qlt_le_dec b a then b else a.
Definition py_max (a b : Q) : Q := if Qlt_le_dec a b then b else a.

(** ** The SYN and RST parsers *)

(** [r'flags=|len=\d+'] *)
Definition re_reply : regex := Alt (lit "flags=") (Cat (lit "len=") (Plus Digit)).

(** [r'^\s*\d+\s+bytes from'] *)
Definition re_bytes_from : regex :=
  Cat Bol (Cat (Star Space) (Cat (Plus Digit) (Cat (Plus Space) (lit "bytes from")))).

(** [r'flags=.*R'] *)
Definition re_rst : regex := Cat (lit "flags=") (Cat (Star AnyChar) (Lit "R")).

Definition parse_hping3 (output : option string) (sent_count : Z) : result Q :=
  if not_output output then Ok 0%Q else
  let out := default "" output in
  let reply_count := re_findall_len re_reply out IGNORECASE in
  let reply_count :=
    if (reply_count =? 0)%nat then re_findall_len re_bytes_from out MULTILINE
    else reply_count in
  ratio ← (if (0 <? sent_count)%Z
           then py_truediv (Z.of_nat reply_count) sent_count
           else Ok 0%Q);
  Ok (py_max 0 (py_min 1 ratio)).

Definition parse_hping3_rst (output : option string) (sent_count : Z) : result Q :=
  if not_output output then Ok 0%Q else
  let out := default "" output in
  let rst_count := re_findall_len re_rst out IGNORECASE in
  ratio ← (if (0 <? sent_count)%Z
           then py_truediv (Z.of_nat rst_count) sent_count
           else Ok 0%Q);
  Ok (py_max 0 (py_min 1 ratio)).

(** ** The ICMP parser *)

(** [r'ttl=(\d+)'] *)
Definition re_ttl : regex := Cat (lit "ttl=") (Group (Plus Digit)).

(** The group [\d+\.?\d*] followed by [%\s+packet loss]. *)
Definition re_loss : regex :=
  Cat (Group (Cat (Plus Digit) (Cat (Opt (Lit ".")) (Star Digit))))
      (Cat (Lit "%") (Cat (Plus Space) (lit "packet loss"))).

(** The tail [=\s*[\d.]+/([\d.]+)/] shared by the two latency patterns. *)
Definition re_avg_tail : regex :=
  Cat (Lit "=") (Cat (Star Space) (Cat (Plus DigitOrDot) (Cat (Lit "/")
      (Cat (Group (Plus DigitOrDot)) (Lit "/"))))).

(** [r'rtt.*?=\s*[\d.]+/([\d.]+)/'] and
    [r'round-trip.*?=\s*[\d.]+/([\d.]+)/'] *)
Definition rtt_patterns : list regex :=
  [ Cat (lit "rtt") (Cat (LazyStar AnyChar) re_avg_tail);
    Cat (lit "round-trip") (Cat (LazyStar AnyChar) re_avg_tail) ].

(** The loop over [rtt_patterns]: the first pattern that matches sets
    [avg_latency] and ends the loop. *)
Fixpoint first_rtt (patterns : list regex) (out : string)
    (features : gmap string pyval) : result (gmap string pyval) :=
  match patterns with
  | [] => Ok features
  | pattern :: patterns' =>
      match re_search pattern out IGNORECASE with
      | Some rtt_match =>
          q ← py_float (group1 rtt_match);
          Ok (<["avg_latency" := VFloat q]> features)
      | None => first_rtt patterns' out features
      end
  end.

Definition parse_ping (output : option string) : result (gmap string pyval) :=
  let features : gmap string pyval :=
    {[ "avg_latency" := VStr ""; "packet_loss" := VStr "";
       "ttl_return" := VStr ""; "icmp_reachable" := VInt 0 ]} in
  if not_output output then Ok features else
  let out := default "" output in
  features ←
    (if contains "bytes from" (lower out) || contains "icmp_seq=" (lower out)
     then
       let features := <["icmp_reachable" := VInt 1]> features in
       match re_search re_ttl out IGNORECASE with
       | Some ttl_match =>
           n ← py_int (group1 ttl_match);
           Ok (<["ttl_return" := VInt n]> features)
       | None => Ok features
       end
     else Ok features);
  features ←
    match re_search re_loss out IGNORECASE with
    | Some loss_match =>
        q ← py_float (group1 loss_match);
        Ok (<["packet_loss" := VFloat q]> features)
    | None => Ok features
    end;
  first_rtt rtt_patterns out features.

(** ** The port-scan and HTTP parsers *)

(** [r'\d+/tcp\s+filtered'] *)
Definition re_filtered : regex :=
  Cat (Plus Digit) (Cat (lit "/tcp") (Cat (Plus Space) (lit "filtered"))).

(** [r'scanned in ([\d.]+) seconds'] *)
Definition re_scan_time : regex :=
  Cat (lit "scanned in ") (Cat (Group (Plus DigitOrDot)) (lit " seconds")).

Definition parse_nmap (output : option string) : result (gmap string pyval) :=
  let features : gmap string pyval :=
    {[ "filtered_ports_count" := VInt 0; "scan_time" := VStr "" ]} in
  if not_output output then Ok features else
  let out := default "" output in
  let features :=
    <["filtered_ports_count" :=
        VInt (Z.of_nat (re_findall_len re_filtered out IGNORECASE))]> features in
  match re_search re_scan_time out IGNORECASE with
  | Some time_match =>
      q ← py_float (group1 time_match);
      Ok (<["scan_time" := VFloat q]> features)
  | None => Ok features
  end.

(** [any(x in haystack for x in needles)] *)
Definition any_in (needles : list string) (haystack : string) : bool :=
  existsb (fun needle => contains needle haystack) needles.

Definition parse_curl (output : option string) : gmap string pyval :=
  if not_output output then {[ "header_modified" := VInt 0 ]} else
  let out := default "" output in
  let proxy_headers := ["via:"; "x-cache:"; "x-proxy"; "proxy-agent:"; "x-forwarded"] in
  let header_modified := any_in proxy_headers (lower out) in
  {[ "header_modified" := VInt (if header_modified then 1 else 0) ]}.

(** ** The probe executor *)

(** What [subprocess.run] does with a command: it completes with an exit
    code and the two captured streams, runs out of time, or fails to
    start. *)
Inductive run_outcome :=
| Completed (returncode : Z) (stdout stderr : string)
| TimeoutExpired
| RunError (e : exn).

(** The lines [run_command] prints under [debug]. *)
Inductive diagnostic :=
| Running (cmd : list string)
| CommandFailed (returncode : Z) (stderr_head : string)
| CommandTimedOut (timeout : Z)
| CommandError (e : exn).

Definition FEATURE_COLUMNS : list string :=
  [ "timestamp"; "host"; "avg_latency"; "packet_loss"; "ttl_return"; "icmp_reachable";
    "filtered_ports_count"; "scan_time"; "syn_ack_ratio"; "tcp_reset_ratio";
    "response_time"; "header_modified"; "firewall_label" ].

Section Collector.
(** The world a collection runs in: the outcome of each external
    command, the clock, the label map, and the float operations that
    round in binary. *)
Variable subprocess_run : list string -> Z -> run_outcome.
Variable time_time : Z.
Variable LABEL_MAP : gmap string Z.
(** [round(x, decimals)] *)
Variable py_round : Q -> Z -> Q.
(** [float(output.strip().split('\n')[-1])], [None] on a [ValueError]. *)
Variable last_line_float : string -> option Q.

Definition run_command (cmd : list string) (timeout : Z) (debug : bool)
    : list diagnostic * option string :=
  let log := if debug then [Running cmd] else [] in
  match subprocess_run cmd timeout with
  | Completed returncode stdout stderr =>
      let log :=
        if debug && negb (returncode =? 0)%Z
        then log ++ [CommandFailed returncode (String.substring 0 200 stderr)]
        else log in
      (log, Some (if (returncode =? 0)%Z then stdout else stdout +:+ stderr))
  | TimeoutExpired =>
      (if debug then log ++ [CommandTimedOut timeout] else log, None)
  | RunError e =>
      (if debug then log ++ [CommandError e] else log, None)
  end.

(** The captured output of a probe, its diagnostics dropped. *)
Definition probe (cmd : list string) (timeout : Z) (debug : bool) : option string :=
  (run_command cmd timeout debug).2.

Definition measure_curl_time (ip : string) (timeout : Z) : option Q :=
  let cmd := ["curl"; "-s"; "-I"; "-w"; "%{time_total}"; "-o"; "/dev/null";
              "--max-time"; py_str_int timeout; "http://" +:+ ip] in
  let output := probe cmd (timeout + 2) false in
  if not_output output then None
  else match last_line_float (default "" output) with
       | Some seconds => Some (seconds * 1000)%Q
       | None => None
       end.

(** ** The feature aggregator *)

(** [features.update(other)] *)
Definition update (features other : gmap string pyval) : gmap string pyval :=
  other ∪ features.

(** [features[key]]; every key read by the collector is present. *)
Definition item (features : gmap string pyval) (key : string) : pyval :=
  default VNone (features !! key).

(** [a > b]: defined between numbers, a [TypeError] otherwise. *)
Definition number (v : pyval) : option Q :=
  match v with
  | VInt n => Some (inject_Z n)
  | VFloat q => Some q
  | _ => None
  end.

Definition py_gt (a b : pyval) : result bool :=
  match number a, number b with
  | Some x, Some y => Ok (negb (Qle_bool x y))
  | _, _ => Raise TypeError
  end.

(** L3: the standard ping, then the large-packet ping whose loss figure
    may take the place of the first. *)
Definition collect_l3 (ip : string) (debug : bool)
    (features : gmap string pyval) : result (gmap string pyval) :=
  let ping_output := probe ["ping"; "-c"; "5"; ip] 10 debug in
  ping_features ← parse_ping ping_output;
  let features := update features ping_features in
  let ping_large_output := probe ["ping"; "-c"; "5"; "-s"; "1400"; ip] 10 debug in
  if not_output ping_large_output then Ok features else
  large_ping_features ← parse_ping ping_large_output;
  let large_loss := item large_ping_features "packet_loss" in
  replace ←
    (if truthy large_loss then
       if negb (truthy (item features "packet_loss")) then Ok true
       else py_gt large_loss (item features "packet_loss")
     else Ok false);
  Ok (if replace : bool then <["packet_loss" := large_loss]> features else features).

(** L4: the port scan and the two SYN tests. *)
Definition collect_l4 (ip : string) (debug : bool)
    (features : gmap string pyval) : result (gmap string pyval) :=
  let nmap_output := probe ["nmap"; "-sS"; "-p"; "1-1024"; ip; "-oN"; "-"] 120 debug in
  nmap_features ← parse_nmap nmap_output;
  let features := update features nmap_features in
  let hping3_80 := probe ["hping3"; "-S"; "-p"; "80"; "-c"; "5"; ip] 10 debug in
  syn_ack_ratio ← parse_hping3 hping3_80 5;
  let features := <["syn_ack_ratio" := VFloat syn_ack_ratio]> features in
  let hping3_22 := probe ["hping3"; "-S"; "-p"; "22"; "-c"; "5"; ip] 10 debug in
  tcp_reset_ratio ← parse_hping3_rst hping3_22 5;
  Ok (<["tcp_reset_ratio" := VFloat tcp_reset_ratio]> features).

(** The sweep over the candidate proxy ports: the first port whose
    answer carries an indicator sets the flag and ends the loop. *)
Fixpoint proxy_sweep (ip : string) (debug : bool) (proxy_ports : list Z)
    (features : gmap string pyval) : gmap string pyval :=
  match proxy_ports with
  | [] => features
  | port :: proxy_ports' =>
      let proxy_output :=
        probe ["curl"; "-s"; "-I"; "-x"; "http://" +:+ ip +:+ ":" +:+ py_str_int port;
               "http://example.com"; "--connect-timeout"; "3"] 10 debug in
      let proxy_indicators :=
        ["via:"; "x-squid"; "cache-status:"; "x-cache"; "x-forwarded"; "squid"] in
      if negb (not_output proxy_output)
         && any_in proxy_indicators (lower (default "" proxy_output))
      then <["header_modified" := VInt 1]> features
      else proxy_sweep ip debug proxy_ports' features
  end.

(** L7: the timed request, the header probe and the proxy sweep. *)
Definition collect_l7 (ip : string) (debug : bool)
    (features : gmap string pyval) : gmap string pyval :=
  let features :=
    match measure_curl_time ip 5 with
    | Some response_time =>
        if truthy (VFloat response_time)
        then <["response_time" := VFloat response_time]> features
        else features
    | None => features
    end in
  let curl_output :=
    probe ["curl"; "-s"; "-I"; "-H"; "X-AIFW-Test: 1"; "--max-time"; "5";
           "http://" +:+ ip] 8 debug in
  let features :=
    if not_output curl_output then features
    else update features (parse_curl curl_output) in
  let features :=
    <["header_modified" :=
        if truthy (item features "header_modified")
        then item features "header_modified" else VInt 0]> features in
  match item features "header_modified" with
  | VInt 0 => proxy_sweep ip debug [3128; 8080; 8888]%Z features
  | _ => features
  end.

(** The fields rounded before the row is returned, with their decimals. *)
Definition decimal_formats : list (string * Z) :=
  [ ("avg_latency", 3); ("scan_time", 2); ("packet_loss", 2);
    ("syn_ack_ratio", 3); ("tcp_reset_ratio", 3); ("response_time", 3) ]%Z.

(** One round of the formatting loop. These fields hold [''] or a
    number when the loop runs. *)
Definition format_field (features : gmap string pyval) (fd : string * Z)
    : result (gmap string pyval) :=
  match item features fd.1 with
  | VStr "" => Ok features
  | VFloat q => Ok (<[fd.1 := VFloat (py_round q fd.2)]> features)
  | VInt n => Ok (<[fd.1 := VFloat (py_round (inject_Z n) fd.2)]> features)
  | VStr _ => Raise ValueError
  | VNone => Raise TypeError
  end.

Fixpoint format_fields (fds : list (string * Z)) (features : gmap string pyval)
    : result (gmap string pyval) :=
  match fds with
  | [] => Ok features
  | fd :: fds' => features ← format_field features fd; format_fields fds' features
  end.

Definition apply_label (ip : string) (features : gmap string pyval)
    : gmap string pyval :=
  match LABEL_MAP !! ip with
  | Some label => <["firewall_label" := VInt label]> features
  | None => features
  end.

(** The row before any probe: the time stamp, the host, and every other
    column empty. *)
Definition initial_features (ip : string) : gmap string pyval :=
  let features : gmap string pyval :=
    {[ "timestamp" := VInt time_time; "host" := VStr ip ]} in
  foldl (fun features col => <[col := VStr ""]> features) features
        (drop 2 FEATURE_COLUMNS).

Definition collect_features (ip : string) (debug : bool)
    : result (gmap string pyval) :=
  let features := initial_features ip in
  features ← collect_l3 ip debug features;
  features ← collect_l4 ip debug features;
  let features := collect_l7 ip debug features in
  features ← format_fields decimal_formats features;
  Ok (apply_label ip features).
End Collector.

(** ** The dataset writer *)

(** A CSV file is the list of its records, a record the list of its
    fields; the file system maps a path to the file stored there. *)
Section Writer.
(** The text [csv] writes for a float, [repr(x)]. *)
Variable repr_float : Q -> string.

(** What the [csv] writer puts in a field. *)
Definition csv_text (v : pyval) : string :=
  match v with
  | VNone => ""
  | VStr s => s
  | VInt n => py_str_int n
  | VFloat q => repr_float q
  end.

(** [v != ''] *)
Definition not_empty_str (v : pyval) : bool :=
  match v with
  | VStr s => negb (String.eqb s "")
  | _ => true
  end.

(** [v is not None] *)
Definition is_not_none (v : pyval) : bool :=
  match v with
  | VNone => false
  | _ => true
  end.

(** The value the comprehension of [write_csv] gives a column. *)
Definition cell (row : gmap string pyval) (col : string) : pyval :=
  if not_empty_str (default (VStr "") (row !! col))
     && is_not_none (default VNone (row !! col))
  then default (VStr "") (row !! col)
  else VStr "".

Definition csv_row (row : gmap string pyval) : gmap string pyval :=
  list_to_map (map (fun col => (col, cell row col)) FEATURE_COLUMNS).

(** [DictWriter.writerow]: one field per name in [fieldnames], a
    missing key written as the empty rest value. *)
Definition writerow (fieldnames : list string) (rowdict : gmap string pyval)
    : list string :=
  map (fun key => csv_text (default (VStr "") (rowdict !! key))) fieldnames.

(** The record written for one row of [data]. *)
Definition csv_record (row : gmap string pyval) : list string :=
  writerow FEATURE_COLUMNS (csv_row row).

Definition write_csv (data : list (gmap string pyval)) (output_file : string)
    (append : bool) (fs : gmap string (list (list string)))
    : gmap string (list (list string)) :=
  let file_exists := bool_decide (is_Some (fs !! output_file)) in
  let mode_a := append && file_exists in
  let write_header := negb (append && file_exists) in
  let f := if mode_a then default [] (fs !! output_file) else [] in
  let f := if write_header then f ++ [FEATURE_COLUMNS] else f in
  let f :=
    foldl (fun f row => f ++ [csv_record row]) f data in
  <[output_file := f]> fs.

(** The write at the end of an iteration of [main]. *)
Definition write_results (iteration : nat) (all_features : list (gmap string pyval))
    (output : string) (fs : gmap string (list (list string)))
    : gmap string (list (list string)) :=
  match all_features with
  | [] => fs
  | _ :: _ => write_csv all_features output (bool_decide (0 < iteration)) fs
  end.
End Writer.

(** ** The collection loop *)

(** The warning [main] prints when a host fails. *)
Inductive warning :=
| ErrorCollecting (ip : string) (e : exn).

Section Batch.
(** [collect_features(ip, args.debug)] in the run at hand. *)
Variable collect : string -> result (gmap string pyval).

(** The body of both loops: append the row, or catch the exception
    and print the warning. *)
Definition gather (acc : list (gmap string pyval) * list warning)
    (ip : string) (outcome : result (gmap string pyval))
    : list (gmap string pyval) * list warning :=
  match outcome with
  | Ok row => (acc.1 ++ [row], acc.2)
  | Raise e => (acc.1, acc.2 ++ [ErrorCollecting ip e])
  end.

(** [for ip in targets: ...] *)
Definition collect_sequential (targets : list string)
    : list (gmap string pyval) * list warning :=
  foldl (fun acc ip => gather acc ip (collect ip)) ([], []) targets.

(** [futures]: one future per target, paired with its host; a future
    holds the outcome of its call. *)
Definition submit_all (targets : list string)
    : list (result (gmap string pyval) * string) :=
  map (fun ip => (collect ip, ip)) targets.

(** [for future in as_completed(futures): ...], the futures taken in
    the order in which they completed. *)
Definition collect_completed (completed : list (result (gmap string pyval) * string))
    : list (gmap string pyval) * list warning :=
  foldl (fun acc future => gather acc future.2 future.1) ([], []) completed.

(** The rows of the futures that returned, and the warnings for those
    that raised, in the order of the list. *)
Definition returned_rows (futures : list (result (gmap string pyval) * string))
    : list (gmap string pyval) :=
  omap (fun future => match future.1 with Ok row => Some row | Raise _ => None end)
       futures.

Definition raised_warnings (futures : list (result (gmap string pyval) * string))
    : list warning :=
  omap (fun future =>
          match future.1 with
          | Ok _ => None
          | Raise e => Some (ErrorCollecting future.2 e)
          end) futures.

(** [as_completed] yields every future once, in some order. *)
Definition as_completed (futures completed : list (result (gmap string pyval) * string))
    : Prop :=
  Permutation futures completed.
End Batch.

(** ** Sample probe outputs *)

(** The summary of a ping run without its reply lines. *)
Definition ping_summary : string :=
  "5 packets transmitted, 5 received, 0% packet loss" +:+ String newline
  "rtt min/avg/max/mdev = 1.0/2.345/3.0/0.5 ms".

Definition ping_reply_line : string :=
  "64 bytes from 10.0.0.1: icmp_seq=1 ttl=64 time=1.0 ms".

(** The line hping3 prints for a SYN/ACK answer. *)
Definition hping_syn_ack_line : string :=
  "len=46 ip=192.168.56.10 ttl=64 DF id=0 sport=22 flags=SA seq=0 win=29200 rtt=0.4 ms".

(** A host whose first ping gets no answer in time while the large-packet
    ping comes back without loss. *)
Definition only_large_ping_answers (cmd : list string) (timeout : Z) : run_outcome :=
  if bool_decide (cmd = ["ping"; "-c"; "5"; "-s"; "1400"; "10.0.0.1"])
  then Completed 0 (ping_reply_line +:+ String newline ping_summary) ""
  else TimeoutExpired.

(** A host that answers the standard ping and nothing else. *)
Definition only_ping_answers (cmd : list string) (timeout : Z) : run_outcome :=
  if bool_decide (cmd = ["ping"; "-c"; "5"; "10.0.0.1"])
  then Completed 0 (ping_reply_line +:+ String newline ping_summary) ""
  else TimeoutExpired.

(** Two rows as the aggregator leaves them for a host that answered
    nothing, and a stand-in for the printing of floats. *)
Definition dark_row (ip : string) : gmap string pyval :=
  <["header_modified" := VInt 0]>
    (<["tcp_reset_ratio" := VFloat 0]>
       (<["syn_ack_ratio" := VFloat 0]>
          (<["filtered_ports_count" := VInt 0]>
             (<["icmp_reachable" := VInt 0]> (initial_features 1700000000 ip))))).

Definition sample_batch : list (gmap string pyval) :=
  [dark_row "10.0.0.1"; dark_row "10.0.0.2"].

Definition sample_repr (q : Q) : string :=
  py_str_int (Qnum q) +:+ "/" +:+ py_str_int (Zpos (Qden q)).

(** A run in which the host 10.0.0.2 makes the collection raise. *)
Definition second_host_fails (ip : string) : result (gmap string pyval) :=
  if String.eqb ip "10.0.0.2" then Raise ValueError else Ok (dark_row ip).

(** An [Optional] value is the float [q], up to the choice of fraction. *)
Definition is_float (v : option pyval) (q : Q) : Prop :=
  ∃ x, v = Some (VFloat x) ∧ (x == q)%Q.

(** ** The rest of [main]: iterations and the final count *)

Section Iterations.
Variable repr_float : Q -> string.

(** The loop [for iteration in range(args.repeat)], given the rows each
    iteration collected: the rows are written unless there are none, and
    counted in [total_collected]. *)
Fixpoint main_loop (iteration : nat) (batches : list (list (gmap string pyval)))
    (output : string) (fs : gmap string (list (list string)))
    (total_collected : nat) : gmap string (list (list string)) * nat :=
  match batches with
  | [] => (fs, total_collected)
  | all_features :: batches' =>
      main_loop (S iteration) batches' output
        (write_results repr_float iteration all_features output fs)
        (match all_features with
         | [] => total_collected
         | _ :: _ => total_collected + length all_features
         end)
  end.

(** The exit status of [main] after the loop. *)
Definition main_exit_status (total_collected : nat) : Z :=
  if bool_decide (0 < total_collected) then 0%Z else 1%Z.
End Iterations.

(** ** The caller in [classify.py] *)

(** [model_features] of [classify_host]. *)
Definition model_features : list string :=
  [ "avg_latency"; "packet_loss"; "ttl_return"; "icmp_reachable";
    "filtered_ports_count"; "scan_time"; "syn_ack_ratio"; "tcp_reset_ratio";
    "response_time"; "header_modified" ].

(** [features[col]], a [KeyError] when the key is missing. *)
Definition getitem (features : gmap string pyval) (col : string) : result pyval :=
  match features !! col with
  | Some v => Ok v
  | None => Raise (OtherException "KeyError")
  end.

(** [[features[col] for col in cols]] *)
Fixpoint feature_values (features : gmap string pyval) (cols : list string)
    : result (list pyval) :=
  match cols with
  | [] => Ok []
  | col :: cols' =>
      v ← getitem features col;
      vs ← feature_values features cols';
      Ok (v :: vs)
  end.

(** ** Notions used to state the properties *)

(** [f] differs from [g] at most on the keys in [keys]. *)
Definition modifies_only (keys : gset string) (f g : gmap string pyval) : Prop :=
  ∀ k, k ∉ keys → f !! k = g !! k.

(** An empty field or a float that is not negative. *)
Definition empty_or_nonneg_float (v : option pyval) : Prop :=
  v = Some (VStr "") ∨ ∃ q, v = Some (VFloat q) ∧ (0 <= q)%Q.

(** A flag: the integer 0 or 1. *)
Definition is_flag (v : option pyval) : Prop :=
  v = Some (VInt 0) ∨ v = Some (VInt 1).

(** The test of [parse_ping] for a reply line. *)
Definition has_reply_marker (out : string) : bool :=
  contains "bytes from" (lower out) || contains "icmp_seq=" (lower out).

(** The dictionary of the four ICMP features. *)
Definition ping_map (lat loss ttl reach : pyval) : gmap string pyval :=
  {[ "avg_latency" := lat; "packet_loss" := loss; "ttl_return" := ttl;
     "icmp_reachable" := reach ]}.

(** A figure taken from the text: empty, or the float of a match. *)
Definition parsed_float (v : pyval) : Prop :=
  v = VStr "" ∨ ∃ m q, py_float (group1 m) = Ok q ∧ v = VFloat q.

(** The row of a call that returned, for stating examples. *)
Definition returned (r : result (gmap string pyval)) : bool :=
  match r with Ok _ => true | Raise _ => false end.

Definition row_of (r : result (gmap string pyval)) : gmap string pyval :=
  match r with Ok f => f | Raise _ => ∅ end.

Definition proxied_response : string :=
  "HTTP/1.1 200 OK" +:+ String newline "Via: 1.1 squid".

(** The keys written by each phase of [collect_features]. *)
Definition l3_keys : gset string :=
  {[ "avg_latency"; "packet_loss"; "ttl_return"; "icmp_reachable" ]}.
Definition l4_keys : gset string :=
  {[ "filtered_ports_count"; "scan_time"; "syn_ack_ratio"; "tcp_reset_ratio" ]}.
Definition l7_keys : gset string := {[ "response_time"; "header_modified" ]}.
Definition format_keys : gset string :=
  {[ "avg_latency"; "scan_time"; "packet_loss"; "syn_ack_ratio"; "tcp_reset_ratio";
     "response_time" ]}.

(** The value [format_field] leaves in a field that holds a number. *)
Definition formatted (py_round : Q -> Z -> Q) (decimals : Z) (v : pyval) : pyval :=
  match v with
  | VFloat q => VFloat (py_round q decimals)
  | VInt n => VFloat (py_round (inject_Z n) decimals)
  | _ => v
  end.

Definition columns : gset string := list_to_set FEATURE_COLUMNS.

(** A sample run: the host 10.0.0.1 answers the standard ping only. *)
Definition sample_collect (debug : bool) : result (gmap string pyval) :=
  collect_features only_ping_answers 1700000000 {[ "10.0.0.1" := 2%Z ]}
    (fun q _ => q) (fun _ => None) "10.0.0.1" debug.

Definition sample_row : gmap string pyval := row_of (sample_collect false).

(** A world in which no command ever produces output. *)
Definition silent (cmd : list string) (timeout : Z) : run_outcome := TimeoutExpired.

(** A ping whose latency summary carries a figure [float] rejects. *)
Definition garbled_ping : string :=
  ping_reply_line +:+ String newline
  "rtt min/avg/max/mdev = 1.0/2.3.45/3.0/0.5 ms".

Definition garbled_ping_answers (cmd : list string) (timeout : Z) : run_outcome :=
  if bool_decide (cmd = ["ping"; "-c"; "5"; "10.0.0.1"])
  then Completed 0 garbled_ping ""
  else TimeoutExpired.

(** The texts a pattern can match. *)
Fixpoint lang (fl : flags) (r : regex) (w : list ascii) : Prop :=
  match r with
  | Empty => w = []
  | Lit c => ∃ x, w = [x] ∧ lit_matches fl c x = true
  | OneOf cs => ∃ x, w = [x] ∧ in_set cs x = true
  | Star cs => forallb (in_set cs) w = true
  | Plus cs => w ≠ [] ∧ forallb (in_set cs) w = true
  | LazyStar cs => forallb (in_set cs) w = true
  | Opt r1 => w = [] ∨ lang fl r1 w
  | Cat r1 r2 => ∃ w1 w2, w = w1 ++ w2 ∧ lang fl r1 w1 ∧ lang fl r2 w2
  | Alt r1 r2 => lang fl r1 w ∨ lang fl r2 w
  | Group r1 => lang fl r1 w
  | Bol => w = []
  end.

(** The texts a group of the pattern can capture. *)
Fixpoint in_group (fl : flags) (r : regex) (u : list ascii) : Prop :=
  match r with
  | Group r1 => lang fl r1 u ∨ in_group fl r1 u
  | Opt r1 => in_group fl r1 u
  | Cat r1 r2 | Alt r1 r2 => in_group fl r1 u ∨ in_group fl r2 u
  | _ => False
  end.

(** Every match of the pattern passes through a group. *)
Fixpoint sets_group (r : regex) : bool :=
  match r with
  | Group _ => true
  | Cat r1 r2 => sets_group r1 || sets_group r2
  | Alt r1 r2 => sets_group r1 && sets_group r2
  | _ => false
  end.

(** The captured text after a sub-pattern, given the one before it. *)
Definition group_after (fl : flags) (r : regex) (g g' : option string) : Prop :=
  (∃ u, g' = Some (text u) ∧ in_group fl r u) ∨ (sets_group r = false ∧ g' = g).

(** A field the formatting loop accepts: empty or a float. *)
Definition formattable (v : option pyval) : Prop :=
  v = Some (VStr "") ∨ ∃ q, v = Some (VFloat q).

(** * Properties *)

(** ** The two ratios *)

Lemma clamp_unit (x : Q) : (0 <= py_max 0 (py_min 1 x) <= 1)%Q.
Proof.
  unfold py_max, py_min.
  destruct (Qlt_le_dec x 1) as [Hx | Hx];
    destruct (Qlt_le_dec 0 _) as [H0 | H0]; split;
    try apply Qle_refl; try (apply Qlt_le_weak; assumption); try discriminate.
Qed.

Lemma clamp_zero : py_max 0 (py_min 1 0) = 0%Q.
Proof.
  unfold py_max, py_min.
  destruct (Qlt_le_dec 0 1) as [_ | H]; [| exfalso; now apply H].
  now destruct (Qlt_le_dec 0 0).
Qed.

(** The guarded division of both parsers never raises. *)
Lemma guarded_ratio (count : nat) (sent_count : Z) :
  ∃ ratio : Q,
    (if (0 <? sent_count)%Z then py_truediv (Z.of_nat count) sent_count else Ok 0%Q)
    = Ok ratio
    ∧ (sent_count = 0%Z → ratio = 0%Q).
Proof.
  destruct (0 <? sent_count)%Z eqn:Hs.
  - apply Z.ltb_lt in Hs. unfold py_truediv.
    destruct (sent_count =? 0)%Z eqn:Hz; [apply Z.eqb_eq in Hz; lia |].
    eexists; split; [reflexivity | lia].
  - eexists; split; [reflexivity | reflexivity].
Qed.

(** C1. For every output (absent, empty, or any text, however many reply
    lines it repeats) and every sent count, [parse_hping3] and
    [parse_hping3_rst] return a ratio between 0 and 1 inclusive; with a
    sent count of 0 both return exactly 0.0, and no division is
    attempted. *)
Theorem hping3_ratios_in_unit_interval (output : option string) (sent_count : Z) :
  (∃ r, parse_hping3 output sent_count = Ok r ∧ (0 <= r <= 1)%Q)
  ∧ (∃ r, parse_hping3_rst output sent_count = Ok r ∧ (0 <= r <= 1)%Q)
  ∧ parse_hping3 output 0 = Ok 0%Q
  ∧ parse_hping3_rst output 0 = Ok 0%Q.
Proof.
  unfold parse_hping3, parse_hping3_rst.
  destruct (not_output output).
  - split; [| split; [| split]]; try reflexivity;
      exists 0%Q; repeat split; discriminate.
  - cbv zeta. split; [| split; [| split]].
    + match goal with |- context [py_truediv (Z.of_nat ?c) _] =>
        destruct (guarded_ratio c sent_count) as (ratio & -> & _) end.
      exists (py_max 0 (py_min 1 ratio)). split; [reflexivity | apply clamp_unit].
    + match goal with |- context [py_truediv (Z.of_nat ?c) _] =>
        destruct (guarded_ratio c sent_count) as (ratio & -> & _) end.
      exists (py_max 0 (py_min 1 ratio)). split; [reflexivity | apply clamp_unit].
    + simpl. now rewrite clamp_zero.
    + simpl. now rewrite clamp_zero.
Qed.

(** Seven reply lines for five probes: the raw count exceeds the sent
    count and the ratio is cut at 1. *)
Example duplicated_replies_are_clamped :
  let line := "len=46 ip=10.0.0.1 flags=RA" +:+ String newline "" in
  let out := line +:+ line +:+ line +:+ line +:+ line +:+ line +:+ line in
  parse_hping3 (Some out) 5 = Ok 1%Q ∧ parse_hping3_rst (Some out) 5 = Ok 1%Q.
Proof. vm_compute. split; reflexivity. Qed.

(** C9. [parse_hping3_rst] is meant to count the lines whose flag field
    holds the reset flag. On the line hping3 prints for a SYN/ACK answer,
    whose flag field is [SA], the pattern [flags=.*R] still matches: under
    IGNORECASE its [R] is met by the [r] of the [rtt=] field further along
    the line, so one of five probes is reported as reset. *)
Theorem parse_hping3_rst_counts_syn_ack_line :
  contains "flags=SA " hping_syn_ack_line = true
  ∧ parse_hping3_rst (Some hping_syn_ack_line) 5 = Ok (1 # 5)%Q.
Proof. split; vm_compute; reflexivity. Qed.

(** The same flag field without a later [r] on the line is not counted,
    and a flag field with the reset flag is. *)
Example parse_hping3_rst_flag_fields :
  parse_hping3_rst (Some "len=46 ip=10.0.0.1 flags=SA seq=0 win=29200") 5 = Ok 0%Q
  ∧ parse_hping3_rst (Some "len=46 ip=10.0.0.1 flags=RA seq=0 win=0") 5 = Ok (1 # 5)%Q.
Proof. split; vm_compute; reflexivity. Qed.

(** ** The probe executor *)

(** C2. [run_command] returns [None] when the command times out or cannot
    be run, the standard output alone when the exit code is zero, and the
    standard output followed by the standard error for any other exit
    code. *)
Theorem run_command_contract (subprocess_run : list string -> Z -> run_outcome)
    (cmd : list string) (timeout : Z) (debug : bool) :
  (subprocess_run cmd timeout = TimeoutExpired
   ∨ (∃ e, subprocess_run cmd timeout = RunError e) →
   (run_command subprocess_run cmd timeout debug).2 = None)
  ∧ (∀ stdout stderr,
       subprocess_run cmd timeout = Completed 0 stdout stderr →
       (run_command subprocess_run cmd timeout debug).2 = Some stdout)
  ∧ (∀ returncode stdout stderr,
       returncode ≠ 0%Z →
       subprocess_run cmd timeout = Completed returncode stdout stderr →
       (run_command subprocess_run cmd timeout debug).2 = Some (stdout +:+ stderr)).
Proof.
  unfold run_command. split; [| split].
  - intros [-> | [e ->]]; reflexivity.
  - intros stdout stderr ->. reflexivity.
  - intros returncode stdout stderr Hrc ->. simpl.
    destruct (returncode =? 0)%Z eqn:Hz; [apply Z.eqb_eq in Hz; contradiction |].
    reflexivity.
Qed.

Lemma run_command_contract_witness :
  (run_command (fun _ _ => TimeoutExpired) ["ping"; "-c"; "5"; "10.0.0.1"] 10 true).2 = None
  ∧ (run_command (fun _ _ => Completed 0 "out" "err") ["hping3"] 10 false).2 = Some "out"
  ∧ (run_command (fun _ _ => Completed 1 "out" "err") ["hping3"] 10 true).2 = Some "outerr".
Proof.
  split; [| split].
  - apply (proj1 (run_command_contract (fun _ _ => TimeoutExpired) _ 10 true)).
    left. reflexivity.
  - apply (proj1 (proj2 (run_command_contract (fun _ _ => Completed 0 "out" "err")
                           ["hping3"] 10 false)) "out" "err").
    reflexivity.
  - apply (proj2 (proj2 (run_command_contract (fun _ _ => Completed 1 "out" "err")
                           ["hping3"] 10 true)) 1%Z "out" "err").
    + discriminate.
    + reflexivity.
Defined.

(** ** The ICMP parser on the summary scenario *)

Lemma parse_ping_summary :
  parse_ping (Some ping_summary)
  = Ok {[ "avg_latency" := VFloat (469 # 200); "packet_loss" := VFloat 0;
          "ttl_return" := VStr ""; "icmp_reachable" := VInt 0 ]}.
Proof. vm_compute. reflexivity. Qed.

(** C3, as stated: the two summary lines alone do not give
    [icmp_reachable = 1]. *)
Lemma ping_summary_alone_is_not_reachable :
  ¬ ∃ f, parse_ping (Some ping_summary) = Ok f
         ∧ is_float (f !! "packet_loss") 0
         ∧ is_float (f !! "avg_latency") 2.345
         ∧ f !! "icmp_reachable" = Some (VInt 1).
Proof.
  intros (f & Hf & _ & _ & Hr). rewrite parse_ping_summary in Hf.
  injection Hf as <-. vm_compute in Hr. discriminate.
Qed.

(** C3, amended. On the two summary lines [parse_ping] yields
    [packet_loss = 0.0], [avg_latency = 2.345], an empty [ttl_return] and
    [icmp_reachable = 0], since no reply line is present; with a reply
    line in front of them the same loss and latency come with
    [icmp_reachable = 1]. *)
Theorem parse_ping_summary_scenario :
  (∃ f, parse_ping (Some ping_summary) = Ok f
        ∧ is_float (f !! "packet_loss") 0
        ∧ is_float (f !! "avg_latency") 2.345
        ∧ f !! "ttl_return" = Some (VStr "")
        ∧ f !! "icmp_reachable" = Some (VInt 0))
  ∧ (∃ f, parse_ping (Some (ping_reply_line +:+ String newline ping_summary)) = Ok f
          ∧ is_float (f !! "packet_loss") 0
          ∧ is_float (f !! "avg_latency") 2.345
          ∧ f !! "icmp_reachable" = Some (VInt 1)).
Proof.
  split.
  - eexists. split; [apply parse_ping_summary |].
    repeat split; try (vm_compute; reflexivity);
      eexists; (split; [vm_compute; reflexivity | reflexivity]).
  - eexists. split; [vm_compute; reflexivity |].
    repeat split; try (vm_compute; reflexivity);
      eexists; (split; [vm_compute; reflexivity | reflexivity]).
Qed.

(** ** The two ping phases *)

(** C5. The second ping is meant to fill [packet_loss] whenever the first
    left it empty. When the first ping times out and the large-packet ping
    reports 0% loss, the parsed loss is the float 0.0, which the test
    [if large_ping_features['packet_loss'] and ...] takes for false:
    [packet_loss] stays empty after both phases. *)
Theorem large_ping_zero_loss_is_not_filled_in :
  let run := only_large_ping_answers in
  let ip := "10.0.0.1" in
  (∃ f, parse_ping (probe run ["ping"; "-c"; "5"; ip] 10 false) = Ok f
        ∧ f !! "packet_loss" = Some (VStr ""))
  ∧ (∃ f, parse_ping (probe run ["ping"; "-c"; "5"; "-s"; "1400"; ip] 10 false) = Ok f
          ∧ f !! "packet_loss" = Some (VFloat 0))
  ∧ (∃ f, collect_l3 run ip false (initial_features 1700000000 ip) = Ok f
          ∧ f !! "packet_loss" = Some (VStr "")).
Proof.
  cbv zeta. split; [| split]; eexists; (split; [vm_compute; reflexivity |]);
    vm_compute; reflexivity.
Qed.

(** What the two phases do with the two loss figures, in general. *)
Section LargePing.
Variable run : list string -> Z -> run_outcome.
Variables (ip : string) (debug : bool) (features f1 f2 : gmap string pyval).
Variable out2 : string.
Hypothesis first_ping :
  parse_ping (probe run ["ping"; "-c"; "5"; ip] 10 debug) = Ok f1.
Hypothesis large_ping_output :
  probe run ["ping"; "-c"; "5"; "-s"; "1400"; ip] 10 debug = Some out2.
Hypothesis large_ping_not_empty : String.eqb out2 "" = false.
Hypothesis large_ping : parse_ping (Some out2) = Ok f2.

Lemma collect_l3_unfold (a b : pyval) :
  f1 !! "packet_loss" = Some a →
  f2 !! "packet_loss" = Some b →
  collect_l3 run ip debug features
  = (replace ← (if truthy b then
                  if negb (truthy a) then Ok true else py_gt b a
                else Ok false);
     Ok (if replace : bool
         then <["packet_loss" := b]> (update features f1)
         else update features f1)).
Proof.
  intros Ha Hb. unfold collect_l3. rewrite first_ping. simpl.
  rewrite large_ping_output. simpl. rewrite large_ping_not_empty.
  rewrite large_ping. simpl. unfold item, update.
  rewrite (lookup_union_Some_l f1 features _ _ Ha), Hb. reflexivity.
Qed.

(** Both figures present: the larger of the two is kept. *)
Lemma collect_l3_keeps_larger_loss (x y : Q) :
  (0 <= x)%Q → (0 <= y)%Q →
  f1 !! "packet_loss" = Some (VFloat x) →
  f2 !! "packet_loss" = Some (VFloat y) →
  ∃ f, collect_l3 run ip debug features = Ok f
       ∧ ((x < y)%Q → f !! "packet_loss" = Some (VFloat y))
       ∧ ((y <= x)%Q → f !! "packet_loss" = Some (VFloat x)).
Proof.
  intros Hx Hy Ha Hb. rewrite (collect_l3_unfold _ _ Ha Hb). simpl.
  assert (Hkeep : (update features f1) !! "packet_loss" = Some (VFloat x))
    by (apply lookup_union_Some_l, Ha).
  destruct (Qeq_bool y 0) eqn:Hy0; simpl.
  - apply Qeq_bool_iff in Hy0. eexists; split; [reflexivity |]. split.
    + intros Hlt. exfalso. rewrite Hy0 in Hlt.
      apply (Qlt_not_le _ _ Hlt Hx).
    + intros _. exact Hkeep.
  - destruct (Qeq_bool x 0) eqn:Hx0; simpl.
    + apply Qeq_bool_iff in Hx0. apply Qeq_bool_neq in Hy0.
      eexists; split; [reflexivity |]. split.
      * intros _. apply lookup_insert_eq.
      * intros Hle. exfalso. apply Hy0. apply Qle_antisym; [| exact Hy].
        now rewrite <- Hx0.
    + unfold py_gt. simpl. destruct (Qle_bool y x) eqn:Hle; simpl.
      * apply Qle_bool_iff in Hle. eexists; split; [reflexivity |]. split.
        -- intros Hlt. exfalso. apply (Qlt_not_le _ _ Hlt Hle).
        -- intros _. exact Hkeep.
      * eexists; split; [reflexivity |]. split.
        -- intros _. apply lookup_insert_eq.
        -- intros Hle'. apply Qle_bool_iff in Hle'. congruence.
Qed.

(** First figure empty: a second figure other than 0.0 fills it, and a
    second figure of 0.0 does not. *)
Lemma collect_l3_fills_empty_loss (y : Q) :
  f1 !! "packet_loss" = Some (VStr "") →
  f2 !! "packet_loss" = Some (VFloat y) →
  ∃ f, collect_l3 run ip debug features = Ok f
       ∧ (¬ (y == 0)%Q → f !! "packet_loss" = Some (VFloat y))
       ∧ ((y == 0)%Q → f !! "packet_loss" = Some (VStr "")).
Proof.
  intros Ha Hb. rewrite (collect_l3_unfold _ _ Ha Hb). simpl.
  destruct (Qeq_bool y 0) eqn:Hy0; simpl; eexists; (split; [reflexivity |]); split.
  - intros Hne. apply Qeq_bool_iff in Hy0. contradiction.
  - intros _. apply lookup_union_Some_l, Ha.
  - intros _. apply lookup_insert_eq.
  - intros Heq. apply Qeq_bool_neq in Hy0. contradiction.
Qed.
End LargePing.

(** ** TTL and reachability *)

(** A TTL is only ever stored next to a reachability flag of 1, and both
    keys are present. *)
Definition ttl_implies_reachable (f : gmap string pyval) : Prop :=
  (f !! "ttl_return" = Some (VStr "") ∨ f !! "icmp_reachable" = Some (VInt 1))
  ∧ is_Some (f !! "ttl_return").

(** Two dictionaries that agree on the two keys. *)
Definition same_icmp (f g : gmap string pyval) : Prop :=
  f !! "ttl_return" = g !! "ttl_return"
  ∧ f !! "icmp_reachable" = g !! "icmp_reachable".

Lemma same_icmp_refl f : same_icmp f f.
Proof. split; reflexivity. Qed.

Lemma same_icmp_trans f g h : same_icmp f g → same_icmp g h → same_icmp f h.
Proof. intros [? ?] [? ?]. split; congruence. Qed.

Lemma same_icmp_insert (key : string) (v : pyval) f :
  key ≠ "ttl_return" → key ≠ "icmp_reachable" → same_icmp (<[key := v]> f) f.
Proof. intros H1 H2. split; now apply lookup_insert_ne. Qed.

Lemma same_icmp_update f g :
  g !! "ttl_return" = None → g !! "icmp_reachable" = None →
  same_icmp (update f g) f.
Proof.
  intros H1 H2. unfold update.
  split; rewrite lookup_union_r; auto.
Qed.

Lemma ttl_implies_reachable_same f g :
  same_icmp f g → ttl_implies_reachable g → ttl_implies_reachable f.
Proof. intros [H1 H2] Hg. unfold ttl_implies_reachable. now rewrite H1, H2. Qed.

Ltac other_key := apply same_icmp_insert; discriminate.

(** One step of the exception monad on a known outcome. *)
Ltac run_bind := cbn [mbind result_bind].

Lemma first_rtt_same_icmp patterns out f f' :
  first_rtt patterns out f = Ok f' → same_icmp f' f.
Proof.
  induction patterns as [| pattern patterns IH]; simpl.
  - intros [= <-]. apply same_icmp_refl.
  - destruct (re_search pattern out IGNORECASE); [| exact IH].
    destruct (py_float _); simpl; [| discriminate].
    intros [= <-]. other_key.
Qed.

Lemma parse_ping_ttl_implies_reachable output f :
  parse_ping output = Ok f → ttl_implies_reachable f.
Proof.
  unfold parse_ping. destruct (not_output output).
  { intros [= <-]. split; [left |]; vm_compute; eauto. }
  cbv zeta.
  match goal with |- mbind _ ?first = _ → _ =>
    assert (Hfirst : ∀ f1, first = Ok f1 → ttl_implies_reachable f1) end.
  { intros f1. destruct (_ || _).
    - destruct (re_search re_ttl _ _).
      + destruct (py_int _); run_bind; [| discriminate].
        intros [= <-]. split; [right |]; vm_compute; eauto.
      + intros [= <-]. split; [right |]; vm_compute; eauto.
    - intros [= <-]. split; [left |]; vm_compute; eauto. }
  match goal with |- mbind _ ?first = _ → _ => destruct first as [f1 |] end;
    run_bind; [| discriminate].
  specialize (Hfirst f1 eq_refl).
  destruct (re_search re_loss _ _).
  - destruct (py_float _); run_bind; [| discriminate].
    intros Hrtt%first_rtt_same_icmp.
    eapply ttl_implies_reachable_same; [| exact Hfirst].
    eapply same_icmp_trans; [exact Hrtt | other_key].
  - run_bind. intros Hrtt%first_rtt_same_icmp.
    eapply ttl_implies_reachable_same; eauto.
Qed.

Lemma parse_ping_has_reachable output f :
  parse_ping output = Ok f → is_Some (f !! "icmp_reachable").
Proof.
  unfold parse_ping. destruct (not_output output).
  { intros [= <-]. vm_compute; eauto. }
  cbv zeta.
  match goal with |- mbind _ ?first = _ → _ =>
    assert (Hfirst : ∀ f1, first = Ok f1 → is_Some (f1 !! "icmp_reachable")) end.
  { intros f1. destruct (_ || _).
    - destruct (re_search re_ttl _ _).
      + destruct (py_int _); run_bind; [| discriminate].
        intros [= <-]. vm_compute; eauto.
      + intros [= <-]. vm_compute; eauto.
    - intros [= <-]. vm_compute; eauto. }
  match goal with |- mbind _ ?first = _ → _ => destruct first as [f1 |] end;
    run_bind; [| discriminate].
  specialize (Hfirst f1 eq_refl).
  destruct (re_search re_loss _ _).
  - destruct (py_float _); run_bind; [| discriminate].
    intros [_ ->]%first_rtt_same_icmp.
    now rewrite lookup_insert_ne by discriminate.
  - run_bind. now intros [_ ->]%first_rtt_same_icmp.
Qed.

Lemma parse_nmap_no_icmp output g :
  parse_nmap output = Ok g →
  g !! "ttl_return" = None ∧ g !! "icmp_reachable" = None.
Proof.
  unfold parse_nmap. destruct (not_output output).
  { intros [= <-]. split; vm_compute; reflexivity. }
  cbv zeta. destruct (re_search re_scan_time _ _).
  - destruct (py_float _); run_bind; [| discriminate].
    intros [= <-]. split; vm_compute; reflexivity.
  - intros [= <-]. split; vm_compute; reflexivity.
Qed.

Lemma parse_curl_no_icmp output :
  parse_curl output !! "ttl_return" = None
  ∧ parse_curl output !! "icmp_reachable" = None.
Proof.
  unfold parse_curl. destruct (not_output output); [split; vm_compute; reflexivity |].
  cbv zeta. destruct (any_in _ _); split; vm_compute; reflexivity.
Qed.

Section RowInvariant.
Variable subprocess_run : list string -> Z -> run_outcome.
Variable time_time : Z.
Variable LABEL_MAP : gmap string Z.
Variable py_round : Q -> Z -> Q.
Variable last_line_float : string -> option Q.

Lemma collect_l3_ttl_implies_reachable ip debug features f :
  collect_l3 subprocess_run ip debug features = Ok f →
  ttl_implies_reachable f.
Proof.
  unfold collect_l3. cbv zeta.
  destruct (parse_ping (probe _ ["ping"; "-c"; "5"; ip] _ _)) as [f1 |] eqn:Hping;
    run_bind;
    [| discriminate].
  assert (Hsame : same_icmp (update features f1) f1).
  { destruct (parse_ping_ttl_implies_reachable _ _ Hping) as [_ [t Ht]].
    destruct (parse_ping_has_reachable _ _ Hping) as [r Hr].
    unfold update. split.
    - rewrite Ht. now apply lookup_union_Some_l.
    - rewrite Hr. now apply lookup_union_Some_l. }
  assert (Hinv : ttl_implies_reachable (update features f1)).
  { eapply ttl_implies_reachable_same; [exact Hsame |].
    eapply parse_ping_ttl_implies_reachable, Hping. }
  destruct (not_output _); [now intros [= <-] |].
  destruct (parse_ping (probe _ ("ping" :: _ :: _ :: "-s" :: _) _ _)) as [f2 |];
    run_bind; [| discriminate].
  match goal with |- mbind _ ?c = _ → _ => destruct c as [replace |] end;
    run_bind; [| discriminate].
  destruct replace; [| now intros [= <-]].
  intros [= <-]. eapply ttl_implies_reachable_same; [| exact Hinv]. other_key.
Qed.

Lemma collect_l4_same_icmp ip debug features f :
  collect_l4 subprocess_run ip debug features = Ok f → same_icmp f features.
Proof.
  unfold collect_l4. cbv zeta.
  destruct (parse_nmap _) as [g |] eqn:Hnmap; run_bind; [| discriminate].
  destruct (parse_hping3 _ _); run_bind; [| discriminate].
  destruct (parse_hping3_rst _ _); run_bind; [| discriminate].
  intros [= <-]. apply parse_nmap_no_icmp in Hnmap as [H1 H2].
  eapply same_icmp_trans; [other_key |].
  eapply same_icmp_trans; [other_key |].
  now apply same_icmp_update.
Qed.

Lemma proxy_sweep_same_icmp ip debug ports features :
  same_icmp (proxy_sweep subprocess_run ip debug ports features) features.
Proof.
  induction ports as [| port ports IH]; simpl; [apply same_icmp_refl |].
  destruct (_ && _); [other_key | exact IH].
Qed.

Lemma collect_l7_same_icmp ip debug features :
  same_icmp (collect_l7 subprocess_run last_line_float ip debug features) features.
Proof.
  unfold collect_l7. cbv zeta.
  match goal with |- context [item ?f "header_modified"] =>
    assert (Hf : same_icmp f features); [| generalize dependent f] end.
  { eapply same_icmp_trans; [other_key |].
    eapply same_icmp_trans with (g :=
      match measure_curl_time subprocess_run last_line_float ip 5 with
      | Some response_time =>
          if truthy (VFloat response_time)
          then <["response_time" := VFloat response_time]> features
          else features
      | None => features
      end).
    - destruct (not_output _); [apply same_icmp_refl |].
      apply same_icmp_update; apply parse_curl_no_icmp.
    - destruct (measure_curl_time _ _ _ _); [| apply same_icmp_refl].
      destruct (truthy _); [other_key | apply same_icmp_refl]. }
  intros f Hf.
  destruct (item f "header_modified") as [| | [] |]; try exact Hf.
  eapply same_icmp_trans; [apply proxy_sweep_same_icmp | exact Hf].
Qed.

Lemma format_fields_same_icmp fds features f :
  Forall (fun fd => fd.1 ≠ "ttl_return" ∧ fd.1 ≠ "icmp_reachable") fds →
  format_fields py_round fds features = Ok f → same_icmp f features.
Proof.
  intros Hfds. revert features.
  induction Hfds as [| fd fds [H1 H2] _ IH]; intros features; simpl.
  - intros [= <-]. apply same_icmp_refl.
  - destruct (format_field py_round features fd) as [f1 |] eqn:Hfd; run_bind;
      [| discriminate].
    intros Hrest%IH. eapply same_icmp_trans; [exact Hrest |].
    unfold format_field in Hfd.
    destruct (item features fd.1) as [| [| ? ?] | |]; try discriminate;
      injection Hfd as <-;
      solve [apply same_icmp_refl | now apply same_icmp_insert].
Qed.

Lemma apply_label_same_icmp ip features :
  same_icmp (apply_label LABEL_MAP ip features) features.
Proof.
  unfold apply_label. destruct (LABEL_MAP !! ip); [other_key | apply same_icmp_refl].
Qed.

Lemma collect_features_ttl_implies_reachable ip debug row :
  collect_features subprocess_run time_time LABEL_MAP py_round last_line_float
    ip debug = Ok row →
  ttl_implies_reachable row.
Proof.
  unfold collect_features. cbv zeta.
  destruct (collect_l3 _ _ _ _) as [f3 |] eqn:H3; run_bind; [| discriminate].
  destruct (collect_l4 _ _ _ _) as [f4 |] eqn:H4; run_bind; [| discriminate].
  destruct (format_fields _ _ _) as [f5 |] eqn:H5; run_bind; [| discriminate].
  intros [= <-].
  apply collect_l3_ttl_implies_reachable in H3.
  apply collect_l4_same_icmp in H4.
  apply format_fields_same_icmp in H5;
    [| unfold decimal_formats; repeat constructor; discriminate].
  eapply ttl_implies_reachable_same; [| exact H3].
  eapply same_icmp_trans; [apply apply_label_same_icmp |].
  eapply same_icmp_trans; [exact H5 |].
  eapply same_icmp_trans; [apply collect_l7_same_icmp | exact H4].
Qed.
End RowInvariant.

(** C10. In every feature map [parse_ping] returns, and so in every row
    [collect_features] returns, a [ttl_return] that is not empty comes
    with [icmp_reachable = 1]. *)
Theorem ttl_return_implies_icmp_reachable :
  (∀ output f v,
     parse_ping output = Ok f →
     f !! "ttl_return" = Some v → v ≠ VStr "" →
     f !! "icmp_reachable" = Some (VInt 1))
  ∧ (∀ subprocess_run time_time LABEL_MAP py_round last_line_float ip debug row v,
       collect_features subprocess_run time_time LABEL_MAP py_round last_line_float
         ip debug = Ok row →
       row !! "ttl_return" = Some v → v ≠ VStr "" →
       row !! "icmp_reachable" = Some (VInt 1)).
Proof.
  split.
  - intros output f v Hf Hv Hne.
    destruct (parse_ping_ttl_implies_reachable _ _ Hf) as [[H | H] _]; congruence.
  - intros run now labels round llf ip debug row v Hrow Hv Hne.
    destruct (collect_features_ttl_implies_reachable _ _ _ _ _ _ _ _ Hrow)
      as [[H | H] _]; congruence.
Qed.

Lemma ttl_return_implies_icmp_reachable_witness :
  (∃ f, parse_ping (Some ping_reply_line) = Ok f
        ∧ f !! "ttl_return" = Some (VInt 64)
        ∧ f !! "icmp_reachable" = Some (VInt 1))
  ∧ (∃ row, collect_features only_ping_answers 1700000000 ∅ (fun q _ => q)
              (fun _ => None) "10.0.0.1" false = Ok row
            ∧ row !! "ttl_return" = Some (VInt 64)
            ∧ row !! "icmp_reachable" = Some (VInt 1)).
Proof.
  split.
  - eexists. split; [vm_compute; reflexivity |].
    split; [vm_compute; reflexivity |].
    apply (proj1 ttl_return_implies_icmp_reachable (Some ping_reply_line) _ (VInt 64)).
    + vm_compute; reflexivity.
    + vm_compute; reflexivity.
    + discriminate.
  - eexists. split; [vm_compute; reflexivity |].
    split; [vm_compute; reflexivity |].
    apply (proj2 ttl_return_implies_icmp_reachable only_ping_answers 1700000000%Z ∅
             (fun q _ => q) (fun _ => None) "10.0.0.1" false _ (VInt 64)).
    + vm_compute; reflexivity.
    + vm_compute; reflexivity.
    + discriminate.
Defined.

(** ** The dataset writer *)

Section WriterProperties.
Variable repr_float : Q -> string.

Lemma append_records (f : list (list string)) (data : list (gmap string pyval)) :
  foldl (fun f row => f ++ [csv_record repr_float row]) f data = f ++ map (csv_record repr_float) data.
Proof.
  revert f. induction data as [| row data IH]; intros f; simpl.
  - now rewrite app_nil_r.
  - rewrite IH. now rewrite <- app_assoc.
Qed.

(** The file [write_csv] leaves at the output path. *)
Lemma write_csv_file data output_file append fs :
  write_csv repr_float data output_file append fs !! output_file
  = Some ((if append && bool_decide (is_Some (fs !! output_file))
           then default [] (fs !! output_file)
           else [FEATURE_COLUMNS]) ++ map (csv_record repr_float) data).
Proof.
  unfold write_csv. cbv zeta. rewrite lookup_insert_eq, append_records.
  now destruct (append && _).
Qed.

Lemma write_csv_creates data output_file append fs :
  append = false ∨ fs !! output_file = None →
  write_csv repr_float data output_file append fs !! output_file
  = Some (FEATURE_COLUMNS :: map (csv_record repr_float) data).
Proof.
  intros H. rewrite write_csv_file.
  destruct H as [-> | ->]; [reflexivity |].
  rewrite bool_decide_eq_false_2 by (intros [? ?]; discriminate).
  now rewrite andb_false_r.
Qed.

Lemma write_csv_appends data output_file fs old :
  fs !! output_file = Some old →
  write_csv repr_float data output_file true fs !! output_file
  = Some (old ++ map (csv_record repr_float) data).
Proof.
  intros H. rewrite write_csv_file, H.
  now rewrite bool_decide_eq_true_2 by eauto.
Qed.

(** C6. Writing the batch of iteration 1 without [append] and then the
    batch of iteration 2 with [append] to the same path leaves a file
    whose first line is the header and whose other lines are the records
    of the two batches, [2 * hostCount] of them. In general [write_csv]
    starts the file afresh with the header when [append] is false or the
    file does not exist, and otherwise adds the records after the lines
    already there, without a header. *)
Theorem write_csv_two_iterations
    (batch1 batch2 : list (gmap string pyval)) (hostCount : nat)
    (output_file : string) (fs : gmap string (list (list string))) :
  length batch1 = hostCount →
  length batch2 = hostCount →
  (∃ rows,
     write_csv repr_float batch2 output_file true (write_csv repr_float batch1 output_file false fs)
       !! output_file = Some (FEATURE_COLUMNS :: rows)
     ∧ rows = map (csv_record repr_float) batch1 ++ map (csv_record repr_float) batch2
     ∧ length rows = 2 * hostCount)
  ∧ (∀ data append fs',
       append = false ∨ fs' !! output_file = None →
       write_csv repr_float data output_file append fs' !! output_file
       = Some (FEATURE_COLUMNS :: map (csv_record repr_float) data))
  ∧ (∀ data fs' old,
       fs' !! output_file = Some old →
       write_csv repr_float data output_file true fs' !! output_file
       = Some (old ++ map (csv_record repr_float) data)).
Proof.
  intros H1 H2. split; [| split].
  - exists (map (csv_record repr_float) batch1 ++ map (csv_record repr_float) batch2).
    split; [| split; [reflexivity |]].
    + rewrite (write_csv_appends _ _ _
                 (FEATURE_COLUMNS :: map (csv_record repr_float) batch1));
        [reflexivity |].
      apply write_csv_creates. now left.
    + rewrite length_app, !length_map. lia.
  - intros data append fs'. apply write_csv_creates.
  - intros data fs' old. apply write_csv_appends.
Qed.

(** C7. Every record [write_csv] writes for a row has the 13 columns of
    [FEATURE_COLUMNS], in that order: field [i] is the text of the row's
    value for column [i]. A column that is missing from the row, or holds
    [None] or the empty string, is written as the empty text. *)
Theorem csv_record_has_fixed_columns (row : gmap string pyval) :
  length (csv_record repr_float row) = 13
  ∧ (∀ i col,
       FEATURE_COLUMNS !! i = Some col →
       csv_record repr_float row !! i
       = Some (csv_text repr_float (cell row col)))
  ∧ (∀ i col,
       FEATURE_COLUMNS !! i = Some col →
       row !! col = None ∨ row !! col = Some VNone ∨ row !! col = Some (VStr "") →
       csv_record repr_float row !! i = Some "")
  ∧ (∀ data output_file append fs,
       ∃ before,
         write_csv repr_float data output_file append fs !! output_file
         = Some (before ++ map (csv_record repr_float) data)).
Proof.
  assert (Hfield : ∀ i col,
    FEATURE_COLUMNS !! i = Some col →
    csv_record repr_float row !! i = Some (csv_text repr_float (cell row col))).
  { intros i col Hi.
    do 13 (destruct i as [| i]; [injection Hi as <-; reflexivity |]).
    discriminate. }
  split; [reflexivity | split; [exact Hfield | split]].
  - intros i col Hi Hunset. rewrite (Hfield i col Hi). unfold cell.
    destruct Hunset as [-> | [-> | ->]]; reflexivity.
  - intros data output_file append fs. eexists. apply write_csv_file.
Qed.

(** A value that is set is written as its own text. *)
Lemma cell_of_set_value row col v :
  row !! col = Some v → v ≠ VNone → v ≠ VStr "" → cell row col = v.
Proof.
  intros Hv Hnone Hempty. unfold cell. rewrite Hv. simpl.
  destruct v as [| s | |]; try reflexivity; [contradiction |].
  destruct s; [contradiction | reflexivity].
Qed.
End WriterProperties.

Lemma write_csv_two_iterations_witness :
  ∃ rows,
    write_csv sample_repr sample_batch "dataset.csv" true
      (write_csv sample_repr sample_batch "dataset.csv" false ∅) !! "dataset.csv"
    = Some (FEATURE_COLUMNS :: rows)
    ∧ length rows = 4.
Proof.
  destruct (write_csv_two_iterations sample_repr sample_batch sample_batch 2
              "dataset.csv" ∅) as [(rows & Hfile & _ & Hlen) _].
  - reflexivity.
  - reflexivity.
  - exists rows. split; [exact Hfile | exact Hlen].
Defined.

Lemma csv_record_has_fixed_columns_witness :
  csv_record sample_repr (dark_row "10.0.0.1") !! 2 = Some ""
  ∧ csv_record sample_repr (dark_row "10.0.0.1") !! 1 = Some "10.0.0.1".
Proof.
  split.
  - apply (proj1 (proj2 (proj2 (csv_record_has_fixed_columns sample_repr
                                  (dark_row "10.0.0.1")))) 2 "avg_latency").
    + reflexivity.
    + right. right. vm_compute. reflexivity.
  - apply (proj1 (proj2 (csv_record_has_fixed_columns sample_repr
                           (dark_row "10.0.0.1"))) 1 "host").
    reflexivity.
Defined.

(** ** The collection loop *)

Section BatchProperties.
Variable collect : string -> result (gmap string pyval).

Lemma gather_all futures acc :
  foldl (fun acc future => gather acc future.2 future.1) acc futures
  = (acc.1 ++ returned_rows futures, acc.2 ++ raised_warnings futures).
Proof.
  revert acc. induction futures as [| [outcome ip] futures IH]; intros [rows warnings].
  - simpl. now rewrite !app_nil_r.
  - simpl foldl. rewrite IH. unfold returned_rows, raised_warnings.
    destruct outcome; simpl; now rewrite <- ?app_assoc.
Qed.

Lemma collect_completed_all futures :
  collect_completed futures = (returned_rows futures, raised_warnings futures).
Proof. unfold collect_completed. now rewrite gather_all. Qed.

(** The sequential loop is the other loop on the futures in target order. *)
Lemma collect_sequential_completed targets :
  collect_sequential collect targets = collect_completed (submit_all collect targets).
Proof.
  unfold collect_sequential, collect_completed, submit_all.
  generalize (@nil (gmap string pyval), @nil warning).
  induction targets as [| ip targets IH]; intros acc; simpl; [reflexivity |].
  apply IH.
Qed.

Lemma returned_rows_all_ok targets :
  (∀ ip, ip ∈ targets → ∃ row, collect ip = Ok row) →
  map Ok (returned_rows (submit_all collect targets)) = map collect targets
  ∧ raised_warnings (submit_all collect targets) = [].
Proof.
  unfold submit_all, returned_rows, raised_warnings.
  induction targets as [| ip targets IH]; intros Hok; [split; reflexivity |].
  destruct (Hok ip) as [row Hrow]; [left |].
  destruct IH as [IH1 IH2]; [intros; apply Hok; now right |].
  simpl. rewrite Hrow. simpl. split; [f_equal; exact IH1 | exact IH2].
Qed.

Lemma submit_all_app l1 l2 :
  submit_all collect (l1 ++ l2) = submit_all collect l1 ++ submit_all collect l2.
Proof. apply map_app. Qed.

Lemma returned_rows_app l1 l2 :
  returned_rows (l1 ++ l2) = returned_rows l1 ++ returned_rows l2.
Proof. apply omap_app. Qed.

Lemma raised_warnings_app l1 l2 :
  raised_warnings (l1 ++ l2) = raised_warnings l1 ++ raised_warnings l2.
Proof. apply omap_app. Qed.

Lemma returned_rows_raise e ip futures :
  returned_rows ((Raise e, ip) :: futures) = returned_rows futures.
Proof. reflexivity. Qed.

Lemma raised_warnings_raise e ip futures :
  raised_warnings ((Raise e, ip) :: futures)
  = ErrorCollecting ip e :: raised_warnings futures.
Proof. reflexivity. Qed.

Section OneFailure.
Variables (before after : list string) (bad : string) (e : exn).
Hypothesis bad_raises : collect bad = Raise e.
Hypothesis others_return :
  ∀ ip, ip ∈ before ++ after → ∃ row, collect ip = Ok row.

Lemma one_failure_in_order :
  map Ok (returned_rows (submit_all collect (before ++ bad :: after)))
  = map collect (before ++ after)
  ∧ raised_warnings (submit_all collect (before ++ bad :: after))
    = [ErrorCollecting bad e].
Proof.
  destruct (returned_rows_all_ok before) as [Hb1 Hb2];
    [intros; apply others_return, elem_of_app; now left |].
  destruct (returned_rows_all_ok after) as [Ha1 Ha2];
    [intros; apply others_return, elem_of_app; now right |].
  rewrite submit_all_app, returned_rows_app, raised_warnings_app.
  cbn [submit_all map]. rewrite bad_raises.
  rewrite returned_rows_raise, raised_warnings_raise.
  fold (submit_all collect after).
  rewrite !map_app, Hb1, Ha1, Hb2, Ha2. split; reflexivity.
Qed.
End OneFailure.

(** C8. In a batch of N hosts of which exactly one makes
    [collect_features] raise, the loop catches the exception, prints the
    warning for that host and carries on: the sequential loop ends with
    the rows of the other N-1 hosts in target order, the worker-pool
    loop with the same N-1 rows in order of completion, and each has
    printed the one warning. *)
Theorem one_failing_host_is_omitted
    (before after : list string) (bad : string) (e : exn)
    (completed : list (result (gmap string pyval) * string)) :
  collect bad = Raise e →
  (∀ ip, ip ∈ before ++ after → ∃ row, collect ip = Ok row) →
  as_completed (submit_all collect (before ++ bad :: after)) completed →
  let targets := before ++ bad :: after in
  let sequential := collect_sequential collect targets in
  let pooled := collect_completed completed in
  (length sequential.1 = length targets - 1
   ∧ map Ok sequential.1 = map collect (before ++ after)
   ∧ sequential.2 = [ErrorCollecting bad e])
  ∧ (length pooled.1 = length targets - 1
     ∧ map Ok pooled.1 ≡ₚ map collect (before ++ after)
     ∧ pooled.2 = [ErrorCollecting bad e]).
Proof.
  intros Hbad Hothers Hcompleted. cbv zeta.
  destruct (one_failure_in_order before after bad e Hbad Hothers) as [Hrows Hwarn].
  assert (Hlen : length (returned_rows (submit_all collect (before ++ bad :: after)))
                 = length (before ++ bad :: after) - 1).
  { rewrite <- (length_map Ok), Hrows, length_map, !length_app. simpl. lia. }
  split.
  - rewrite collect_sequential_completed, collect_completed_all. simpl.
    now rewrite Hrows, Hwarn.
  - rewrite collect_completed_all. simpl. unfold as_completed in Hcompleted.
    assert (Hr : returned_rows completed
                 ≡ₚ returned_rows (submit_all collect (before ++ bad :: after)))
      by (unfold returned_rows; now rewrite Hcompleted).
    assert (Hw : raised_warnings completed
                 ≡ₚ raised_warnings (submit_all collect (before ++ bad :: after)))
      by (unfold raised_warnings; now rewrite Hcompleted).
    split; [| split].
    + now rewrite (Permutation_length Hr).
    + now rewrite Hr, Hrows.
    + rewrite Hwarn in Hw. now apply Permutation_singleton_r in Hw.
Qed.
End BatchProperties.

Lemma one_failing_host_is_omitted_witness :
  let targets := ["10.0.0.1"; "10.0.0.2"; "10.0.0.3"] in
  length (collect_sequential second_host_fails targets).1 = 2
  ∧ (collect_completed (reverse (submit_all second_host_fails targets))).2
    = [ErrorCollecting "10.0.0.2" ValueError].
Proof.
  cbv zeta.
  destruct (one_failing_host_is_omitted second_host_fails
              ["10.0.0.1"] ["10.0.0.3"] "10.0.0.2" ValueError
              (reverse (submit_all second_host_fails
                          ["10.0.0.1"; "10.0.0.2"; "10.0.0.3"])))
    as [(Hseq & _ & _) (_ & _ & Hpool)].
  - reflexivity.
  - intros ip Hip. apply list_elem_of_In in Hip.
    destruct Hip as [<- | [<- | []]]; eexists; reflexivity.
  - unfold as_completed. symmetry. apply reverse_Permutation.
  - split; [exact Hseq | exact Hpool].
Defined.


(** ** Searching for a literal run followed by a number *)

Section Search.
Context {A : Type}.
Variable fl : flags.


Lemma rmatch_lit_ok l m sn rs g (k : @cont A) :
  length m = length l →
  lit_prefix fl l (m ++ rs) = true →
  rmatch fl (lit_chars l) (Cursor sn (m ++ rs)) g k = k (Cursor (rev m ++ sn) rs) g.
Proof.
  revert m sn. induction l as [| c l IH]; intros [| x m] sn Hlen H;
    try discriminate; [reflexivity |].
  simpl in *. unfold one. simpl.
  apply andb_true_iff in H as [-> H].
  rewrite IH by (auto; lia). now rewrite <- app_assoc.
Qed.

End Search.




(** ** The TTL of a reply *)

Lemma chars_app (a b : string) : chars (a +:+ b) = chars a ++ chars b.
Proof. induction a as [| c a IH]; simpl; [reflexivity | now rewrite <- IH]. Qed.

Lemma chars_text (l : list ascii) : chars (text l) = l.
Proof. apply list_ascii_of_string_of_list_ascii. Qed.

Lemma text_chars (s : string) : text (chars s) = s.
Proof. apply string_of_list_ascii_of_string. Qed.




Lemma py_float_raises_value_error (s : string) (e : exn) :
  py_float s = Raise e → e = ValueError.
Proof.
  unfold py_float. destruct (split_point (chars s)) as [ip fp].
  destruct (_ && _); [discriminate | now intros [= <-]].
Qed.







(** * Further properties of the collector *)

#[local] Set Warnings "-clear-no-such-hyp".

(** ** The shape of what [parse_ping] returns *)

Lemma fold_digits_nonneg (l : list ascii) (acc : Z) :
  (0 <= acc)%Z → forallb is_digit l = true →
  (0 <= fold_left (fun acc c => 10 * acc + digit_value c) l acc)%Z.
Proof.
  revert acc. induction l as [| c l IH]; intros acc Hacc Hl; simpl in *; [exact Hacc |].
  apply andb_true_iff in Hl as [Hc Hl]. apply IH; [| exact Hl].
  unfold is_digit in Hc. apply andb_true_iff in Hc as [Hc _].
  apply N.leb_le in Hc. unfold digit_value. lia.
Qed.

Lemma int_of_digits_nonneg (l : list ascii) :
  forallb is_digit l = true → (0 <= int_of_digits l)%Z.
Proof. apply fold_digits_nonneg. lia. Qed.

Lemma py_int_nonneg (s : string) (n : Z) : py_int s = Ok n → (0 <= n)%Z.
Proof.
  unfold py_int. destruct (bool_decide _); [discriminate |]. simpl.
  destruct (forallb is_digit (chars s)) eqn:Hs; [| discriminate].
  intros [= <-]. now apply int_of_digits_nonneg.
Qed.

Lemma py_float_nonneg (s : string) (q : Q) : py_float s = Ok q → (0 <= q)%Q.
Proof.
  unfold py_float. destruct (split_point (chars s)) as [ip fp].
  destruct (forallb is_digit ip) eqn:Hip; [| discriminate].
  destruct (forallb is_digit (default [] fp)) eqn:Hfp; [| discriminate].
  simpl. destruct (negb _); [| discriminate]. intros [= <-].
  rewrite Qred_correct.
  assert (Hn : (0 <= int_of_digits (ip ++ default [] fp))%Z).
  { apply int_of_digits_nonneg. rewrite forallb_app, Hip, Hfp. reflexivity. }
  assert (Hd : (0 < 10 ^ Z.of_nat (length (default [] fp)))%Z)
    by (apply Z.pow_pos_nonneg; lia).
  destruct (10 ^ Z.of_nat (length (default [] fp)))%Z as [| d | d]; try lia.
  unfold Qdiv, Qinv, Qmult, Qle, inject_Z. simpl. nia.
Qed.

(** Two dictionaries built from the same keys are equal when every
    lookup agrees. *)
Ltac same_lookups :=
  apply map_eq; intros ?; unfold ping_map;
  rewrite ?lookup_insert, ?lookup_singleton; repeat case_decide; congruence.

Lemma ping_map_set_latency lat loss ttl reach v :
  <["avg_latency" := v]> (ping_map lat loss ttl reach) = ping_map v loss ttl reach.
Proof. same_lookups. Qed.

Lemma ping_map_set_loss lat loss ttl reach v :
  <["packet_loss" := v]> (ping_map lat loss ttl reach) = ping_map lat v ttl reach.
Proof. same_lookups. Qed.

Lemma ping_map_set_ttl lat loss ttl reach v :
  <["ttl_return" := v]> (ping_map lat loss ttl reach) = ping_map lat loss v reach.
Proof. same_lookups. Qed.

Lemma ping_map_set_reachable lat loss ttl reach v :
  <["icmp_reachable" := v]> (ping_map lat loss ttl reach) = ping_map lat loss ttl v.
Proof. same_lookups. Qed.

Lemma ping_map_lookup lat loss ttl reach :
  ping_map lat loss ttl reach !! "avg_latency" = Some lat
  ∧ ping_map lat loss ttl reach !! "packet_loss" = Some loss
  ∧ ping_map lat loss ttl reach !! "ttl_return" = Some ttl
  ∧ ping_map lat loss ttl reach !! "icmp_reachable" = Some reach.
Proof. repeat split; vm_compute; reflexivity. Qed.

Lemma ping_map_dom lat loss ttl reach :
  dom (ping_map lat loss ttl reach)
  = ({[ "avg_latency"; "packet_loss"; "ttl_return"; "icmp_reachable" ]} : gset string).
Proof. unfold ping_map. rewrite !dom_insert_L, dom_singleton_L. set_solver. Qed.

Lemma first_rtt_fields patterns out lat loss ttl reach f :
  parsed_float lat →
  first_rtt patterns out (ping_map lat loss ttl reach) = Ok f →
  ∃ lat', f = ping_map lat' loss ttl reach ∧ parsed_float lat'.
Proof.
  intros Hlat. induction patterns as [| pattern patterns IH]; simpl.
  - intros [= <-]. eauto.
  - destruct (re_search pattern out IGNORECASE) as [m |]; [| exact IH].
    destruct (py_float (group1 m)) as [q |] eqn:Hq; run_bind; [| discriminate].
    intros [= <-]. rewrite ping_map_set_latency.
    eexists. split; [reflexivity |]. right. eauto.
Qed.

(** The map [parse_ping] returns, field by field. *)
Lemma parse_ping_fields (output : option string) (f : gmap string pyval) :
  parse_ping output = Ok f →
  ∃ lat loss ttl : pyval,
    f = ping_map lat loss ttl
          (VInt (if has_reply_marker (default "" output) then 1 else 0))
    ∧ parsed_float lat
    ∧ parsed_float loss
    ∧ (ttl = VStr ""
       ∨ has_reply_marker (default "" output) = true
         ∧ ∃ m n, re_search re_ttl (default "" output) IGNORECASE = Some m
                  ∧ py_int (group1 m) = Ok n ∧ ttl = VInt n).
Proof.
  unfold parse_ping. fold (ping_map (VStr "") (VStr "") (VStr "") (VInt 0)).
  destruct (not_output output) eqn:Hno.
  { intros [= <-]. exists (VStr ""), (VStr ""), (VStr "").
    replace (has_reply_marker (default "" output)) with false.
    - repeat split; try (now left).
    - destruct output as [out |]; [| reflexivity].
      simpl in Hno. apply String.eqb_eq in Hno as ->. reflexivity. }
  cbv zeta. set (out := default "" output).
  fold (has_reply_marker out).
  destruct (has_reply_marker out) eqn:Hmark.
  - rewrite ping_map_set_reachable.
    destruct (re_search re_ttl out IGNORECASE) as [mt |] eqn:Hmt.
    + destruct (py_int (group1 mt)) as [n |] eqn:Hn; run_bind; [| discriminate].
      rewrite ping_map_set_ttl.
      destruct (re_search re_loss out IGNORECASE) as [ml |].
      * destruct (py_float (group1 ml)) as [ql |] eqn:Hql; run_bind; [| discriminate].
        rewrite ping_map_set_loss.
        intros (lat & -> & Hlat)%first_rtt_fields; [| now left].
        exists lat, (VFloat ql), (VInt n).
        split; [reflexivity |]. split; [exact Hlat |].
        split; [right; eauto |]. right. split; [reflexivity |]. eauto.
      * run_bind.
        intros (lat & -> & Hlat)%first_rtt_fields; [| now left].
        exists lat, (VStr ""), (VInt n).
        split; [reflexivity |]. split; [exact Hlat |].
        split; [now left |]. right. split; [reflexivity |]. eauto.
    + run_bind. destruct (re_search re_loss out IGNORECASE) as [ml |].
      * destruct (py_float (group1 ml)) as [ql |] eqn:Hql; run_bind; [| discriminate].
        rewrite ping_map_set_loss.
        intros (lat & -> & Hlat)%first_rtt_fields; [| now left].
        exists lat, (VFloat ql), (VStr "").
        split; [reflexivity |]. split; [exact Hlat |].
        split; [right; eauto |]. now left.
      * run_bind.
        intros (lat & -> & Hlat)%first_rtt_fields; [| now left].
        exists lat, (VStr ""), (VStr "").
        split; [reflexivity |]. split; [exact Hlat |].
        split; [now left |]. now left.
  - run_bind. destruct (re_search re_loss out IGNORECASE) as [ml |].
    + destruct (py_float (group1 ml)) as [ql |] eqn:Hql; run_bind; [| discriminate].
      rewrite ping_map_set_loss.
      intros (lat & -> & Hlat)%first_rtt_fields; [| now left].
      exists lat, (VFloat ql), (VStr "").
      split; [reflexivity |]. split; [exact Hlat |].
      split; [right; eauto |]. now left.
    + run_bind.
      intros (lat & -> & Hlat)%first_rtt_fields; [| now left].
      exists lat, (VStr ""), (VStr "").
      split; [reflexivity |]. split; [exact Hlat |].
      split; [now left |]. now left.
Qed.

Lemma returned_row r : returned r = true → r = Ok (row_of r).
Proof. destruct r; [reflexivity | discriminate]. Qed.

(** X1. [parse_ping] reports a host as reachable exactly when the output
    holds a reply marker ([bytes from] or [icmp_seq=], in any case), and
    without a marker it leaves [ttl_return] empty whatever else the text
    says. *)
Theorem parse_ping_reachable_iff_reply_marker (output : option string)
    (f : gmap string pyval) :
  parse_ping output = Ok f →
  f !! "icmp_reachable"
  = Some (VInt (if has_reply_marker (default "" output) then 1 else 0))
  ∧ (has_reply_marker (default "" output) = false →
     f !! "ttl_return" = Some (VStr "")).
Proof.
  intros (lat & loss & ttl & -> & _ & _ & Httl)%parse_ping_fields.
  destruct (ping_map_lookup lat loss ttl
              (VInt (if has_reply_marker (default "" output) then 1 else 0)))
    as (_ & _ & Ht & Hr).
  split; [exact Hr |].
  intros Hno. rewrite Ht. destruct Httl as [-> | [Hyes _]]; [reflexivity |].
  congruence.
Qed.

Lemma parse_ping_reachable_iff_reply_marker_witness :
  row_of (parse_ping (Some ping_reply_line)) !! "icmp_reachable" = Some (VInt 1)
  ∧ row_of (parse_ping (Some ping_summary)) !! "ttl_return" = Some (VStr "").
Proof.
  split.
  - apply (parse_ping_reachable_iff_reply_marker (Some ping_reply_line)).
    apply returned_row. vm_compute. reflexivity.
  - apply (parse_ping_reachable_iff_reply_marker (Some ping_summary)).
    + apply returned_row. vm_compute. reflexivity.
    + vm_compute. reflexivity.
Defined.

(** X2. Whatever the text, the map [parse_ping] returns has exactly the
    four ICMP keys; [packet_loss] and [avg_latency] are empty or a float
    that is not negative, and [ttl_return] is empty or an integer that is
    not negative. *)
Theorem parse_ping_keys_and_figures (output : option string)
    (f : gmap string pyval) :
  parse_ping output = Ok f →
  dom f = ({[ "avg_latency"; "packet_loss"; "ttl_return"; "icmp_reachable" ]}
           : gset string)
  ∧ empty_or_nonneg_float (f !! "packet_loss")
  ∧ empty_or_nonneg_float (f !! "avg_latency")
  ∧ (f !! "ttl_return" = Some (VStr "")
     ∨ ∃ n, f !! "ttl_return" = Some (VInt n) ∧ (0 <= n)%Z).
Proof.
  intros (lat & loss & ttl & -> & Hlat & Hloss & Httl)%parse_ping_fields.
  destruct (ping_map_lookup lat loss ttl
              (VInt (if has_reply_marker (default "" output) then 1 else 0)))
    as (Hl & Hp & Ht & _).
  split; [apply ping_map_dom |]. rewrite Hl, Hp, Ht.
  assert (Hfloat : ∀ v, parsed_float v → empty_or_nonneg_float (Some v)).
  { intros v [-> | (m & q & Hq & ->)]; [now left |].
    right. exists q. split; [reflexivity |]. eapply py_float_nonneg, Hq. }
  split; [auto | split; [auto |]].
  destruct Httl as [-> | (_ & m & n & _ & Hn & ->)]; [now left |].
  right. exists n. split; [reflexivity |]. eapply py_int_nonneg, Hn.
Qed.

Lemma parse_ping_keys_and_figures_witness :
  empty_or_nonneg_float
    (row_of (parse_ping (Some (ping_reply_line +:+ String newline ping_summary)))
     !! "avg_latency").
Proof.
  apply (parse_ping_keys_and_figures
           (Some (ping_reply_line +:+ String newline ping_summary))).
  apply returned_row. vm_compute. reflexivity.
Defined.

(** ** Substring tests *)

Lemma starts_with_spec (needle hay : list ascii) :
  starts_with needle hay = true ↔ ∃ post, hay = needle ++ post.
Proof.
  revert hay. induction needle as [| a needle IH]; intros hay; simpl.
  - split; [eauto | reflexivity].
  - destruct hay as [| b hay].
    + split; [discriminate | intros [post H]; discriminate].
    + rewrite andb_true_iff, Ascii.eqb_eq, IH. split.
      * intros [-> [post ->]]. eauto.
      * intros [post [= -> ->]]. eauto.
Qed.

Lemma find_from_spec (needle hay : list ascii) (i : nat) :
  is_Some (find_from needle hay i) ↔ ∃ pre post, hay = pre ++ needle ++ post.
Proof.
  revert i. induction hay as [| c hay IH]; intros i; simpl.
  - destruct (starts_with needle []) eqn:Hs.
    + apply starts_with_spec in Hs as [post Hs]. split; [| eauto].
      intros _. exists [], post. exact Hs.
    + split; [intros [? ?]; discriminate |].
      intros (pre & post & H). destruct pre; [| discriminate].
      assert (starts_with needle [] = true) by (apply starts_with_spec; eauto).
      congruence.
  - destruct (starts_with needle (c :: hay)) eqn:Hs.
    + apply starts_with_spec in Hs as [post Hs]. split; [| eauto].
      intros _. exists [], post. exact Hs.
    + rewrite IH. split.
      * intros (pre & post & ->). exists (c :: pre), post. reflexivity.
      * intros (pre & post & H). destruct pre as [| c' pre].
        -- assert (starts_with needle (c :: hay) = true)
             by (apply starts_with_spec; eauto).
           congruence.
        -- injection H as -> ->. eauto.
Qed.

Lemma text_app (a b : list ascii) : text (a ++ b) = text a +:+ text b.
Proof. induction a as [| c a IH]; simpl; [reflexivity | now rewrite IH]. Qed.

(** [needle in hay] holds exactly when [hay] can be cut around [needle]. *)
Lemma contains_spec (needle hay : string) :
  contains needle hay = true ↔ ∃ pre post, hay = pre +:+ needle +:+ post.
Proof.
  unfold contains, find. rewrite bool_decide_eq_true, find_from_spec. split.
  - intros (pre & post & H). exists (text pre), (text post).
    rewrite <- (text_chars hay), H, !text_app. now rewrite text_chars.
  - intros (pre & post & ->). exists (chars pre), (chars post).
    now rewrite !chars_app.
Qed.

Lemma any_in_spec (needles : list string) (hay : string) :
  any_in needles hay = true
  ↔ ∃ needle pre post, In needle needles ∧ hay = pre +:+ needle +:+ post.
Proof.
  unfold any_in. rewrite existsb_exists. split.
  - intros (needle & Hin & (pre & post & ->)%contains_spec). eauto 6.
  - intros (needle & pre & post & Hin & ->). exists needle. split; [exact Hin |].
    apply contains_spec. eauto.
Qed.

(** ** The port-scan and HTTP parsers *)

(** X3. Whenever [parse_nmap] returns, its map has exactly the keys
    [filtered_ports_count] and [scan_time]; the count is an integer that
    is not negative (0 for an absent or empty output) and the scan time
    is empty or a float that is not negative. *)
Theorem parse_nmap_keys_and_figures (output : option string)
    (f : gmap string pyval) :
  parse_nmap output = Ok f →
  dom f = ({[ "filtered_ports_count"; "scan_time" ]} : gset string)
  ∧ (∃ n, f !! "filtered_ports_count" = Some (VInt n) ∧ (0 <= n)%Z
          ∧ (not_output output = true → n = 0%Z))
  ∧ empty_or_nonneg_float (f !! "scan_time").
Proof.
  unfold parse_nmap. destruct (not_output output).
  { intros [= <-]. split; [| split].
    - rewrite dom_insert_L, dom_singleton_L. set_solver.
    - exists 0%Z. split; [vm_compute; reflexivity | split; [lia | reflexivity]].
    - left. vm_compute. reflexivity. }
  cbv zeta. destruct (re_search re_scan_time _ _) as [m |].
  - destruct (py_float (group1 m)) as [q |] eqn:Hq; run_bind; [| discriminate].
    intros [= <-]. split; [| split].
    + rewrite !dom_insert_L, dom_singleton_L. set_solver.
    + eexists. split; [| split; [apply Nat2Z.is_nonneg | discriminate]].
      rewrite lookup_insert_ne by discriminate. apply lookup_insert_eq.
    + right. exists q. split; [apply lookup_insert_eq | eapply py_float_nonneg, Hq].
  - intros [= <-]. split; [| split].
    + rewrite !dom_insert_L, dom_singleton_L. set_solver.
    + eexists. split; [| split; [apply Nat2Z.is_nonneg | discriminate]].
      apply lookup_insert_eq.
    + left. rewrite lookup_insert_ne by discriminate.
      rewrite lookup_insert_ne by discriminate. apply lookup_singleton_eq.
Qed.

Lemma parse_nmap_keys_and_figures_witness :
  empty_or_nonneg_float
    (row_of (parse_nmap (Some "Nmap done: 1 IP address scanned in 12.34 seconds"))
     !! "scan_time").
Proof.
  apply (parse_nmap_keys_and_figures
           (Some "Nmap done: 1 IP address scanned in 12.34 seconds")).
  apply returned_row. vm_compute. reflexivity.
Defined.

(** X4. [parse_curl] returns the single key [header_modified], set to 0
    or 1; it is 1 exactly when the response, lowered, holds one of [via:],
    [x-cache:], [x-proxy], [proxy-agent:], [x-forwarded] somewhere, so the
    letter case of the header does not matter. *)
Theorem parse_curl_detects_proxy_headers (output : option string) :
  dom (parse_curl output) = ({[ "header_modified" ]} : gset string)
  ∧ is_flag (parse_curl output !! "header_modified")
  ∧ (parse_curl output !! "header_modified" = Some (VInt 1)
     ↔ ∃ out header pre post,
         output = Some out
         ∧ In header ["via:"; "x-cache:"; "x-proxy"; "proxy-agent:"; "x-forwarded"]
         ∧ lower out = pre +:+ header +:+ post).
Proof.
  unfold parse_curl. destruct output as [out |]; simpl not_output.
  - destruct (String.eqb out "") eqn:Hout.
    + apply String.eqb_eq in Hout as ->.
      split; [apply dom_singleton_L | split; [now left |]].
      rewrite lookup_singleton_eq. split; [discriminate |].
      intros (out & header & pre & post & [= <-] & Hin & Hcut).
      exfalso. destruct pre; [| discriminate]. simpl in Hin.
      destruct Hin as [<- | [<- | [<- | [<- | [<- | []]]]]]; discriminate.
    + cbv zeta. simpl default.
      destruct (any_in _ (lower out)) eqn:Hany;
        (split; [apply dom_singleton_L | split; [auto using lookup_singleton_eq |]]).
      * right. apply lookup_singleton_eq.
      * rewrite lookup_singleton_eq. split; [| reflexivity]. intros _.
        apply any_in_spec in Hany as (header & pre & post & Hin & Hcut).
        exists out, header, pre, post. auto.
      * left. apply lookup_singleton_eq.
      * rewrite lookup_singleton_eq. split; [discriminate |].
        intros (out' & header & pre & post & [= <-] & Hin & Hcut).
        assert (any_in ["via:"; "x-cache:"; "x-proxy"; "proxy-agent:"; "x-forwarded"]
                       (lower out) = true) by (apply any_in_spec; eauto 6).
        congruence.
  - split; [apply dom_singleton_L | split; [now left |]].
    rewrite lookup_singleton_eq. split; [discriminate |].
    intros (out & ? & ? & ? & [=] & _).
Qed.

Lemma parse_curl_detects_proxy_headers_witness :
  parse_curl (Some proxied_response) !! "header_modified" = Some (VInt 1).
Proof.
  apply (proj2 (proj2 (parse_curl_detects_proxy_headers _))).
  exists proxied_response, "via:", ("http/1.1 200 ok" +:+ String newline ""),
    " 1.1 squid".
  split; [reflexivity |]. split; [now left |]. vm_compute. reflexivity.
Defined.

(** ** The keys of the parsers' maps *)

Lemma parse_ping_dom output f :
  parse_ping output = Ok f →
  dom f = ({[ "avg_latency"; "packet_loss"; "ttl_return"; "icmp_reachable" ]}
           : gset string).
Proof.
  intros (lat & loss & ttl & -> & _)%parse_ping_fields. apply ping_map_dom.
Qed.

Lemma parse_nmap_dom output f :
  parse_nmap output = Ok f →
  dom f = ({[ "filtered_ports_count"; "scan_time" ]} : gset string).
Proof.
  unfold parse_nmap. destruct (not_output output).
  { intros [= <-]. rewrite dom_insert_L, dom_singleton_L. set_solver. }
  cbv zeta. destruct (re_search re_scan_time _ _) as [m |].
  - destruct (py_float (group1 m)) as [q |]; run_bind; [| discriminate].
    intros [= <-]. rewrite !dom_insert_L, dom_singleton_L. set_solver.
  - intros [= <-]. rewrite !dom_insert_L, dom_singleton_L. set_solver.
Qed.

Lemma parse_curl_dom output :
  dom (parse_curl output) = ({[ "header_modified" ]} : gset string).
Proof.
  unfold parse_curl. destruct (not_output output); [apply dom_singleton_L |].
  cbv zeta. apply dom_singleton_L.
Qed.

(** ** Which fields a phase may write *)

Lemma modifies_only_refl keys f : modifies_only keys f f.
Proof. intros k _. reflexivity. Qed.

Lemma modifies_only_trans keys1 keys2 f g h :
  modifies_only keys1 f g → modifies_only keys2 g h →
  modifies_only (keys1 ∪ keys2) f h.
Proof.
  intros H1 H2 k Hk. rewrite H1, H2; [reflexivity | set_solver | set_solver].
Qed.

Lemma modifies_only_weaken keys keys' f g :
  keys ⊆ keys' → modifies_only keys f g → modifies_only keys' f g.
Proof. intros Hsub H k Hk. apply H. set_solver. Qed.

Lemma modifies_only_insert (key : string) (v : pyval) f :
  modifies_only {[key]} (<[key := v]> f) f.
Proof. intros k Hk. apply lookup_insert_ne. set_solver. Qed.

Lemma modifies_only_update f g :
  modifies_only (dom g) (update f g) f.
Proof.
  intros k Hk. unfold update. apply lookup_union_r. now apply not_elem_of_dom.
Qed.

Lemma format_field_modifies (py_round : Q -> Z -> Q) features fd f :
  format_field py_round features fd = Ok f → modifies_only {[ fd.1 ]} f features.
Proof.
  unfold format_field.
  destruct (item features fd.1) as [| [| ? ?] | |]; try discriminate;
    intros [= <-]; solve [apply modifies_only_refl | apply modifies_only_insert].
Qed.

Lemma format_fields_modifies (py_round : Q -> Z -> Q) fds features f :
  format_fields py_round fds features = Ok f →
  modifies_only (list_to_set fds.*1) f features.
Proof.
  revert features. induction fds as [| fd fds IH]; intros features; simpl.
  - intros [= <-]. apply modifies_only_refl.
  - destruct (format_field py_round features fd) as [f1 |] eqn:Hfd; run_bind;
      [| discriminate].
    intros Hrest%IH. apply format_field_modifies in Hfd.
    eapply modifies_only_weaken;
      [| eapply modifies_only_trans; [exact Hrest | exact Hfd]].
    set_solver.
Qed.

Section Frames.
Variable subprocess_run : list string -> Z -> run_outcome.
Variable time_time : Z.
Variable LABEL_MAP : gmap string Z.
Variable py_round : Q -> Z -> Q.
Variable last_line_float : string -> option Q.

Lemma collect_l3_modifies ip debug features f :
  collect_l3 subprocess_run ip debug features = Ok f →
  modifies_only l3_keys f features.
Proof.
  unfold collect_l3. cbv zeta.
  destruct (parse_ping (probe _ ["ping"; "-c"; "5"; ip] _ _)) as [f1 |] eqn:Hping;
    run_bind; [| discriminate].
  assert (Hupd : modifies_only l3_keys (update features f1) features).
  { apply parse_ping_dom in Hping as Hdom.
    unfold l3_keys. rewrite <- Hdom. apply modifies_only_update. }
  destruct (not_output _); [now intros [= <-] |].
  destruct (parse_ping (probe _ ("ping" :: _ :: _ :: "-s" :: _) _ _)) as [f2 |];
    run_bind; [| discriminate].
  match goal with |- mbind _ ?c = _ → _ => destruct c as [replace |] end;
    run_bind; [| discriminate].
  destruct replace; [| now intros [= <-]].
  intros [= <-].
  eapply modifies_only_weaken;
    [| eapply modifies_only_trans; [apply modifies_only_insert | exact Hupd]].
  unfold l3_keys. set_solver.
Qed.

Lemma collect_l4_modifies ip debug features f :
  collect_l4 subprocess_run ip debug features = Ok f →
  modifies_only l4_keys f features.
Proof.
  unfold collect_l4. cbv zeta.
  destruct (parse_nmap _) as [g |] eqn:Hnmap; run_bind; [| discriminate].
  destruct (parse_hping3 _ _); run_bind; [| discriminate].
  destruct (parse_hping3_rst _ _); run_bind; [| discriminate].
  intros [= <-]. apply parse_nmap_dom in Hnmap as Hdom.
  eapply modifies_only_weaken;
    [| eapply modifies_only_trans; [apply modifies_only_insert |];
       eapply modifies_only_trans; [apply modifies_only_insert |];
       apply modifies_only_update].
  rewrite Hdom. unfold l4_keys. set_solver.
Qed.

Lemma proxy_sweep_modifies ip debug ports features :
  modifies_only {[ "header_modified" ]}
    (proxy_sweep subprocess_run ip debug ports features) features.
Proof.
  induction ports as [| port ports IH]; simpl; [apply modifies_only_refl |].
  destruct (_ && _); [apply modifies_only_insert | exact IH].
Qed.

Lemma collect_l7_modifies ip debug features :
  modifies_only l7_keys
    (collect_l7 subprocess_run last_line_float ip debug features) features.
Proof.
  unfold collect_l7. cbv zeta.
  set (f1 := match measure_curl_time subprocess_run last_line_float ip 5 with
             | Some response_time =>
                 if truthy (VFloat response_time)
                 then <["response_time" := VFloat response_time]> features
                 else features
             | None => features
             end).
  assert (H1 : modifies_only {[ "response_time" ]} f1 features).
  { subst f1. destruct (measure_curl_time _ _ _ _); [| apply modifies_only_refl].
    destruct (truthy _); [apply modifies_only_insert | apply modifies_only_refl]. }
  match goal with
  | |- context [if not_output ?o then f1 else update f1 (parse_curl ?o)] =>
      set (f2 := if not_output o then f1 else update f1 (parse_curl o))
  end.
  assert (H2 : modifies_only {[ "header_modified" ]} f2 f1).
  { subst f2. destruct (not_output _); [apply modifies_only_refl |].
    match goal with
    | |- context [parse_curl ?o] =>
        rewrite <- (parse_curl_dom o)
    end.
    apply modifies_only_update. }
  set (f3 := <["header_modified" := _]> f2).
  assert (H3 : modifies_only l7_keys f3 features).
  { eapply modifies_only_weaken;
      [| eapply modifies_only_trans; [apply modifies_only_insert |];
         eapply modifies_only_trans; [exact H2 | exact H1]].
    unfold l7_keys. set_solver. }
  destruct (item f3 "header_modified") as [| | [] |]; try exact H3.
  eapply modifies_only_weaken;
    [| eapply modifies_only_trans; [apply proxy_sweep_modifies | exact H3]].
  unfold l7_keys. set_solver.
Qed.

Lemma apply_label_modifies ip features :
  modifies_only {[ "firewall_label" ]} (apply_label LABEL_MAP ip features) features.
Proof.
  unfold apply_label.
  destruct (LABEL_MAP !! ip); [apply modifies_only_insert | apply modifies_only_refl].
Qed.
End Frames.

(** ** Fields are written, never removed *)

Lemma dom_update_mono (f g : gmap string pyval) : dom f ⊆ dom (update f g).
Proof. unfold update. rewrite dom_union_L. set_solver. Qed.

Lemma dom_insert_mono (key : string) (v : pyval) (f : gmap string pyval) :
  dom f ⊆ dom (<[key := v]> f).
Proof. rewrite dom_insert_L. set_solver. Qed.

Section Phases.
Variable subprocess_run : list string -> Z -> run_outcome.
Variable time_time : Z.
Variable LABEL_MAP : gmap string Z.
Variable py_round : Q -> Z -> Q.
Variable last_line_float : string -> option Q.

Lemma collect_l3_dom_mono ip debug features f :
  collect_l3 subprocess_run ip debug features = Ok f → dom features ⊆ dom f.
Proof.
  unfold collect_l3. cbv zeta.
  destruct (parse_ping (probe _ ["ping"; "-c"; "5"; ip] _ _)) as [f1 |];
    run_bind; [| discriminate].
  destruct (not_output _); [intros [= <-]; apply dom_update_mono |].
  destruct (parse_ping (probe _ ("ping" :: _ :: _ :: "-s" :: _) _ _)) as [f2 |];
    run_bind; [| discriminate].
  match goal with |- mbind _ ?c = _ → _ => destruct c as [replace |] end;
    run_bind; [| discriminate].
  destruct replace; intros [= <-]; [| apply dom_update_mono].
  etrans; [apply dom_update_mono | apply dom_insert_mono].
Qed.

Lemma collect_l4_dom_mono ip debug features f :
  collect_l4 subprocess_run ip debug features = Ok f → dom features ⊆ dom f.
Proof.
  unfold collect_l4. cbv zeta.
  destruct (parse_nmap _) as [g |]; run_bind; [| discriminate].
  destruct (parse_hping3 _ _); run_bind; [| discriminate].
  destruct (parse_hping3_rst _ _); run_bind; [| discriminate].
  intros [= <-].
  etrans; [apply dom_update_mono |]. etrans; [apply dom_insert_mono |].
  apply dom_insert_mono.
Qed.

Lemma proxy_sweep_dom_mono ip debug ports features :
  dom features ⊆ dom (proxy_sweep subprocess_run ip debug ports features).
Proof.
  induction ports as [| port ports IH]; simpl; [reflexivity |].
  destruct (_ && _); [apply dom_insert_mono | exact IH].
Qed.

Lemma collect_l7_dom_mono ip debug features :
  dom features ⊆ dom (collect_l7 subprocess_run last_line_float ip debug features).
Proof.
  unfold collect_l7. cbv zeta.
  set (f1 := match measure_curl_time subprocess_run last_line_float ip 5 with
             | Some response_time =>
                 if truthy (VFloat response_time)
                 then <["response_time" := VFloat response_time]> features
                 else features
             | None => features
             end).
  assert (H1 : dom features ⊆ dom f1).
  { subst f1. destruct (measure_curl_time _ _ _ _); [| reflexivity].
    destruct (truthy _); [apply dom_insert_mono | reflexivity]. }
  match goal with
  | |- context [if not_output ?o then f1 else update f1 (parse_curl ?o)] =>
      set (f2 := if not_output o then f1 else update f1 (parse_curl o))
  end.
  assert (H2 : dom f1 ⊆ dom f2).
  { subst f2. destruct (not_output _); [reflexivity | apply dom_update_mono]. }
  set (f3 := <["header_modified" := _]> f2).
  assert (H3 : dom features ⊆ dom f3).
  { etrans; [exact H1 |]. etrans; [exact H2 |]. apply dom_insert_mono. }
  destruct (item f3 "header_modified") as [| | [] |]; try exact H3.
  etrans; [exact H3 | apply proxy_sweep_dom_mono].
Qed.

Lemma format_field_lookup features fd f :
  format_field py_round features fd = Ok f →
  f !! fd.1 = formatted py_round fd.2 <$> features !! fd.1.
Proof.
  unfold format_field, item.
  destruct (features !! fd.1) as [[| [| ? ?] | |] |] eqn:Hv; simpl;
    try discriminate; intros [= <-];
    solve [exact Hv | apply lookup_insert_eq].
Qed.

Lemma format_fields_dom_mono fds features f :
  format_fields py_round fds features = Ok f → dom features ⊆ dom f.
Proof.
  revert features. induction fds as [| fd fds IH]; intros features; simpl.
  - now intros [= <-].
  - destruct (format_field py_round features fd) as [f1 |] eqn:Hfd; run_bind;
      [| discriminate].
    intros Hrest%IH. etrans; [| exact Hrest].
    unfold format_field in Hfd.
    destruct (item features fd.1) as [| [| ? ?] | |]; try discriminate;
      injection Hfd as <-; solve [reflexivity | apply dom_insert_mono].
Qed.

(** A field listed once among [fds] ends up formatted; the loop leaves it
    alone afterwards. *)
Lemma format_fields_lookup fds features f key decimals :
  NoDup fds.*1 → (key, decimals) ∈ fds →
  format_fields py_round fds features = Ok f →
  f !! key = formatted py_round decimals <$> features !! key.
Proof.
  revert features. induction fds as [| fd fds IH]; intros features Hnd Hin;
    [now apply elem_of_nil in Hin |].
  rewrite fmap_cons in Hnd. apply NoDup_cons in Hnd as [Hfresh Hnd].
  cbn [format_fields].
  destruct (format_field py_round features fd) as [f1 |] eqn:Hfd; run_bind;
    [| discriminate].
  intros Hrest. apply elem_of_cons in Hin as [<- | Hin].
  - apply format_fields_modifies in Hrest.
    rewrite (Hrest key) by (now rewrite elem_of_list_to_set).
    exact (format_field_lookup _ _ _ Hfd).
  - rewrite (IH f1 Hnd Hin Hrest). f_equal.
    apply (format_field_modifies _ _ _ _ Hfd).
    intros ->%elem_of_singleton. apply Hfresh.
    apply list_elem_of_fmap. now exists (fd.1, decimals).
Qed.

Lemma apply_label_dom_mono ip features :
  dom features ⊆ dom (apply_label LABEL_MAP ip features).
Proof.
  unfold apply_label. destruct (LABEL_MAP !! ip); [apply dom_insert_mono | reflexivity].
Qed.

(** The phases a returned row went through. *)
Lemma collect_features_phases ip debug row :
  collect_features subprocess_run time_time LABEL_MAP py_round last_line_float
    ip debug = Ok row →
  ∃ f3 f4 f5,
    collect_l3 subprocess_run ip debug (initial_features time_time ip) = Ok f3
    ∧ collect_l4 subprocess_run ip debug f3 = Ok f4
    ∧ format_fields py_round decimal_formats
        (collect_l7 subprocess_run last_line_float ip debug f4) = Ok f5
    ∧ row = apply_label LABEL_MAP ip f5.
Proof.
  unfold collect_features. cbv zeta.
  destruct (collect_l3 _ _ _ _) as [f3 |] eqn:H3; run_bind; [| discriminate].
  destruct (collect_l4 _ _ _ _) as [f4 |] eqn:H4; run_bind; [| discriminate].
  destruct (format_fields _ _ _) as [f5 |] eqn:H5; run_bind; [| discriminate].
  intros [= <-]. exists f3, f4, f5. auto.
Qed.
End Phases.

(** ** What a parser hands to the aggregator *)

Lemma parse_hping3_in_unit output sent_count r :
  parse_hping3 output sent_count = Ok r → (0 <= r <= 1)%Q.
Proof.
  unfold parse_hping3. destruct (not_output output).
  { intros [= <-]. split; discriminate. }
  cbv zeta.
  match goal with |- context [py_truediv (Z.of_nat ?c) _] =>
    destruct (guarded_ratio c sent_count) as (ratio & -> & _) end.
  run_bind. intros [= <-]. apply clamp_unit.
Qed.

Lemma parse_hping3_rst_in_unit output sent_count r :
  parse_hping3_rst output sent_count = Ok r → (0 <= r <= 1)%Q.
Proof.
  unfold parse_hping3_rst. destruct (not_output output).
  { intros [= <-]. split; discriminate. }
  cbv zeta.
  match goal with |- context [py_truediv (Z.of_nat ?c) _] =>
    destruct (guarded_ratio c sent_count) as (ratio & -> & _) end.
  run_bind. intros [= <-]. apply clamp_unit.
Qed.

Lemma parse_nmap_count output f :
  parse_nmap output = Ok f →
  ∃ n, f !! "filtered_ports_count" = Some (VInt n) ∧ (0 <= n)%Z.
Proof.
  unfold parse_nmap. destruct (not_output output).
  { intros [= <-]. exists 0%Z. split; [vm_compute; reflexivity | lia]. }
  cbv zeta. destruct (re_search re_scan_time _ _) as [m |].
  - destruct (py_float (group1 m)) as [q |]; run_bind; [| discriminate].
    intros [= <-]. eexists. split; [| apply Nat2Z.is_nonneg].
    rewrite lookup_insert_ne by discriminate. apply lookup_insert_eq.
  - intros [= <-]. eexists. split; [apply lookup_insert_eq | apply Nat2Z.is_nonneg].
Qed.

Lemma parse_curl_flag output : is_flag (parse_curl output !! "header_modified").
Proof.
  unfold parse_curl. destruct (not_output output); [left; apply lookup_singleton_eq |].
  cbv zeta. destruct (any_in _ _); [right | left]; apply lookup_singleton_eq.
Qed.

Lemma probe_debug run cmd timeout debug :
  probe run cmd timeout debug = probe run cmd timeout false.
Proof.
  unfold probe, run_command. destruct (run cmd timeout); destruct debug; reflexivity.
Qed.

Lemma probe_absent run cmd timeout debug :
  (run cmd timeout = TimeoutExpired ∨ ∃ e, run cmd timeout = RunError e) →
  probe run cmd timeout debug = None.
Proof.
  unfold probe, run_command. intros [-> | [e ->]]; destruct debug; reflexivity.
Qed.

(** ** The row [collect_features] returns *)

Ltac key_sets :=
  unfold columns, l3_keys, l4_keys, l7_keys, format_keys, decimal_formats; simpl;
  set_solver.

Lemma initial_features_dom time_time ip :
  dom (initial_features time_time ip) = columns.
Proof.
  unfold initial_features. simpl. rewrite !dom_insert_L, dom_singleton_L. key_sets.
Qed.

Section Rows.
Variable subprocess_run : list string -> Z -> run_outcome.
Variable time_time : Z.
Variable LABEL_MAP : gmap string Z.
Variable py_round : Q -> Z -> Q.
Variable last_line_float : string -> option Q.

(** Only the eleven feature columns are ever written after the start. *)
Lemma collect_features_modifies ip debug row :
  collect_features subprocess_run time_time LABEL_MAP py_round last_line_float
    ip debug = Ok row →
  modifies_only (l3_keys ∪ l4_keys ∪ l7_keys ∪ format_keys ∪ {[ "firewall_label" ]})
    row (initial_features time_time ip)
  ∧ columns ⊆ dom row.
Proof.
  intros (f3 & f4 & f5 & H3 & H4 & H5 & ->)%collect_features_phases. split.
  - pose proof (collect_l3_modifies _ _ _ _ _ H3) as M3.
    pose proof (collect_l4_modifies _ _ _ _ _ H4) as M4.
    pose proof (collect_l7_modifies subprocess_run last_line_float ip debug f4) as M7.
    pose proof (format_fields_modifies _ _ _ _ H5) as M5.
    pose proof (apply_label_modifies LABEL_MAP ip f5) as ML.
    intros k Hk. rewrite ML, M5, M7, M4, M3; first reflexivity;
      revert Hk; clear; key_sets.
  - rewrite <- (initial_features_dom time_time ip).
    etrans; [eapply collect_l3_dom_mono, H3 |].
    etrans; [eapply collect_l4_dom_mono, H4 |].
    etrans; [apply (collect_l7_dom_mono subprocess_run last_line_float ip debug) |].
    etrans; [eapply format_fields_dom_mono, H5 |].
    apply apply_label_dom_mono.
Qed.
End Rows.

Section RowTheorems.
Variable subprocess_run : list string -> Z -> run_outcome.
Variable time_time : Z.
Variable LABEL_MAP : gmap string Z.
Variable py_round : Q -> Z -> Q.
Variable last_line_float : string -> option Q.

(** X5. Every row [collect_features] returns has exactly the 13 keys of
    [FEATURE_COLUMNS]: no probe outcome removes a column or adds a key. *)
Theorem collect_features_row_has_the_columns ip debug row :
  collect_features subprocess_run time_time LABEL_MAP py_round last_line_float
    ip debug = Ok row →
  dom row = (list_to_set FEATURE_COLUMNS : gset string).
Proof.
  intros [Hmod Hsub]%collect_features_modifies.
  apply set_eq. intros k. split; [| apply Hsub].
  intros Hk.
  destruct (decide (k ∈ l3_keys ∪ l4_keys ∪ l7_keys ∪ format_keys
                        ∪ ({[ "firewall_label" ]} : gset string))) as [Hin | Hout].
  - revert Hin. clear. key_sets.
  - apply elem_of_dom in Hk. rewrite (Hmod k Hout) in Hk.
    apply elem_of_dom in Hk. now rewrite initial_features_dom in Hk.
Qed.

(** X6. The row names its host and its time, and carries the label of
    the label map exactly when the address is a key of the map; without an
    entry the label stays empty. *)
Theorem collect_features_identity_and_label ip debug row :
  collect_features subprocess_run time_time LABEL_MAP py_round last_line_float
    ip debug = Ok row →
  row !! "timestamp" = Some (VInt time_time)
  ∧ row !! "host" = Some (VStr ip)
  ∧ row !! "firewall_label"
    = Some (match LABEL_MAP !! ip with
            | Some label => VInt label
            | None => VStr ""
            end).
Proof.
  intros Hrow. pose proof Hrow as [Hmod _]%collect_features_modifies.
  split; [| split].
  - rewrite Hmod by (clear; key_sets). vm_compute. reflexivity.
  - rewrite Hmod by (clear; key_sets). vm_compute. reflexivity.
  - apply collect_features_phases in Hrow as (f3 & f4 & f5 & H3 & H4 & H5 & ->).
    assert (Hempty : f5 !! "firewall_label" = Some (VStr "")).
    { rewrite (format_fields_modifies _ _ _ _ H5) by (clear; key_sets).
      rewrite (collect_l7_modifies subprocess_run last_line_float ip debug f4)
        by (clear; key_sets).
      rewrite (collect_l4_modifies _ _ _ _ _ H4) by (clear; key_sets).
      rewrite (collect_l3_modifies _ _ _ _ _ H3) by (clear; key_sets).
      vm_compute. reflexivity. }
    unfold apply_label. destruct (LABEL_MAP !! ip); [apply lookup_insert_eq | exact Hempty].
Qed.
End RowTheorems.

Section RowValues.
Variable subprocess_run : list string -> Z -> run_outcome.
Variable time_time : Z.
Variable LABEL_MAP : gmap string Z.
Variable py_round : Q -> Z -> Q.
Variable last_line_float : string -> option Q.

Lemma collect_l4_values ip debug features f :
  collect_l4 subprocess_run ip debug features = Ok f →
  (∃ r, f !! "syn_ack_ratio" = Some (VFloat r) ∧ (0 <= r <= 1)%Q)
  ∧ (∃ r, f !! "tcp_reset_ratio" = Some (VFloat r) ∧ (0 <= r <= 1)%Q)
  ∧ (∃ n, f !! "filtered_ports_count" = Some (VInt n) ∧ (0 <= n)%Z).
Proof.
  unfold collect_l4. cbv zeta.
  destruct (parse_nmap _) as [g |] eqn:Hnmap; run_bind; [| discriminate].
  destruct (parse_hping3 _ _) as [r1 |] eqn:H1; run_bind; [| discriminate].
  destruct (parse_hping3_rst _ _) as [r2 |] eqn:H2; run_bind; [| discriminate].
  intros [= <-]. split; [| split].
  - exists r1. split; [| eapply parse_hping3_in_unit, H1].
    rewrite lookup_insert_ne by discriminate. apply lookup_insert_eq.
  - exists r2. split; [apply lookup_insert_eq | eapply parse_hping3_rst_in_unit, H2].
  - apply parse_nmap_count in Hnmap as (n & Hn & Hpos). exists n. split; [| exact Hpos].
    rewrite !lookup_insert_ne by discriminate. now apply lookup_union_Some_l.
Qed.

Lemma collect_l3_reachable ip debug features f :
  collect_l3 subprocess_run ip debug features = Ok f →
  is_flag (f !! "icmp_reachable").
Proof.
  unfold collect_l3. cbv zeta.
  destruct (parse_ping (probe _ ["ping"; "-c"; "5"; ip] _ _)) as [f1 |] eqn:Hping;
    run_bind; [| discriminate].
  assert (Hflag : is_flag (update features f1 !! "icmp_reachable")).
  { apply parse_ping_fields in Hping as (lat & loss & ttl & -> & _).
    destruct (ping_map_lookup lat loss ttl
                (VInt (if has_reply_marker
                            (default "" (probe subprocess_run ["ping"; "-c"; "5"; ip]
                                           10 debug))
                       then 1 else 0))) as (_ & _ & _ & Hr).
    unfold update. rewrite (lookup_union_Some_l _ _ _ _ Hr).
    destruct (has_reply_marker _); [now right | now left]. }
  destruct (not_output _); [now intros [= <-] |].
  destruct (parse_ping (probe _ ("ping" :: _ :: _ :: "-s" :: _) _ _)) as [f2 |];
    run_bind; [| discriminate].
  match goal with |- mbind _ ?c = _ → _ => destruct c as [replace |] end;
    run_bind; [| discriminate].
  destruct replace; intros [= <-]; [| exact Hflag].
  now rewrite lookup_insert_ne by discriminate.
Qed.

Lemma proxy_sweep_flag ip debug ports features :
  is_flag (features !! "header_modified") →
  is_flag (proxy_sweep subprocess_run ip debug ports features !! "header_modified").
Proof.
  intros Hflag. induction ports as [| port ports IH]; simpl; [exact Hflag |].
  destruct (_ && _); [| exact IH]. right. apply lookup_insert_eq.
Qed.

Lemma collect_l7_flag ip debug features :
  features !! "header_modified" = Some (VStr "") →
  is_flag (collect_l7 subprocess_run last_line_float ip debug features
           !! "header_modified").
Proof.
  intros Hinit. unfold collect_l7. cbv zeta.
  set (f1 := match measure_curl_time subprocess_run last_line_float ip 5 with
             | Some response_time =>
                 if truthy (VFloat response_time)
                 then <["response_time" := VFloat response_time]> features
                 else features
             | None => features
             end).
  assert (H1 : f1 !! "header_modified" = Some (VStr "")).
  { subst f1. destruct (measure_curl_time _ _ _ _); [| exact Hinit].
    destruct (truthy _); [| exact Hinit]. now rewrite lookup_insert_ne by discriminate. }
  match goal with
  | |- context [if not_output ?o then f1 else update f1 (parse_curl ?o)] =>
      set (f2 := if not_output o then f1 else update f1 (parse_curl o))
  end.
  assert (H2 : f2 !! "header_modified" = Some (VStr "")
               ∨ is_flag (f2 !! "header_modified")).
  { subst f2. destruct (not_output _); [now left |]. right.
    match goal with |- context [parse_curl ?o] =>
      destruct (parse_curl_flag o) as [H | H] end;
      unfold update; rewrite (lookup_union_Some_l _ _ _ _ H); [now left | now right]. }
  set (v := if truthy (item f2 "header_modified")
            then item f2 "header_modified" else VInt 0).
  assert (Hv : v = VInt 0 ∨ v = VInt 1).
  { subst v. unfold item. destruct H2 as [-> | [-> | ->]]; simpl; auto. }
  assert (H3 : item (<["header_modified" := v]> f2) "header_modified" = v)
    by (unfold item; now rewrite lookup_insert_eq).
  rewrite H3. destruct Hv as [-> | ->].
  - apply proxy_sweep_flag. left. apply lookup_insert_eq.
  - right. apply lookup_insert_eq.
Qed.

(** X7. In every returned row the two ratios are floats: the rounding to
    three decimals of a value between 0 and 1. They are never left
    empty. *)
Theorem collect_features_ratios ip debug row :
  collect_features subprocess_run time_time LABEL_MAP py_round last_line_float
    ip debug = Ok row →
  (∃ r, row !! "syn_ack_ratio" = Some (VFloat (py_round r 3)) ∧ (0 <= r <= 1)%Q)
  ∧ (∃ r, row !! "tcp_reset_ratio" = Some (VFloat (py_round r 3)) ∧ (0 <= r <= 1)%Q).
Proof.
  intros (f3 & f4 & f5 & H3 & H4 & H5 & ->)%collect_features_phases.
  destruct (collect_l4_values _ _ _ _ H4) as ((r1 & Hr1 & Hu1) & (r2 & Hr2 & Hu2) & _).
  pose proof (collect_l7_modifies subprocess_run last_line_float ip debug f4) as M7.
  pose proof (apply_label_modifies LABEL_MAP ip f5) as ML.
  assert (Hnd : NoDup decimal_formats.*1) by (vm_compute; repeat constructor; set_solver).
  split.
  - exists r1. split; [| exact Hu1].
    rewrite ML by (clear; key_sets).
    rewrite (format_fields_lookup py_round decimal_formats _ _ "syn_ack_ratio" 3 Hnd)
      by (exact H5 || (clear; unfold decimal_formats; set_solver)).
    rewrite M7 by (clear; key_sets). now rewrite Hr1.
  - exists r2. split; [| exact Hu2].
    rewrite ML by (clear; key_sets).
    rewrite (format_fields_lookup py_round decimal_formats _ _ "tcp_reset_ratio" 3 Hnd)
      by (exact H5 || (clear; unfold decimal_formats; set_solver)).
    rewrite M7 by (clear; key_sets). now rewrite Hr2.
Qed.

(** X8. In every returned row [icmp_reachable] and [header_modified] are
    the integer 0 or 1, and [filtered_ports_count] is an integer that is
    not negative. *)
Theorem collect_features_flags_and_count ip debug row :
  collect_features subprocess_run time_time LABEL_MAP py_round last_line_float
    ip debug = Ok row →
  is_flag (row !! "icmp_reachable")
  ∧ is_flag (row !! "header_modified")
  ∧ ∃ n, row !! "filtered_ports_count" = Some (VInt n) ∧ (0 <= n)%Z.
Proof.
  intros (f3 & f4 & f5 & H3 & H4 & H5 & ->)%collect_features_phases.
  pose proof (collect_l3_modifies _ _ _ _ _ H3) as M3.
  pose proof (collect_l4_modifies _ _ _ _ _ H4) as M4.
  pose proof (collect_l7_modifies subprocess_run last_line_float ip debug f4) as M7.
  pose proof (format_fields_modifies _ _ _ _ H5) as M5.
  pose proof (apply_label_modifies LABEL_MAP ip f5) as ML.
  split; [| split].
  - rewrite ML, M5, M7, M4 by (clear; key_sets).
    eapply collect_l3_reachable, H3.
  - rewrite ML, M5 by (clear; key_sets).
    apply collect_l7_flag.
    rewrite M4, M3 by (clear; key_sets). vm_compute. reflexivity.
  - destruct (collect_l4_values _ _ _ _ H4) as (_ & _ & n & Hn & Hpos).
    exists n. split; [| exact Hpos].
    rewrite ML, M5, M7 by (clear; key_sets). exact Hn.
Qed.
End RowValues.

Lemma sample_collect_returns : sample_collect false = Ok sample_row.
Proof. apply returned_row. vm_compute. reflexivity. Qed.

Lemma collect_features_row_has_the_columns_witness :
  dom sample_row = (list_to_set FEATURE_COLUMNS : gset string).
Proof.
  apply (collect_features_row_has_the_columns only_ping_answers 1700000000
           {[ "10.0.0.1" := 2%Z ]} (fun q _ => q) (fun _ => None) "10.0.0.1" false).
  exact sample_collect_returns.
Defined.

Lemma collect_features_identity_and_label_witness :
  sample_row !! "host" = Some (VStr "10.0.0.1")
  ∧ sample_row !! "firewall_label" = Some (VInt 2).
Proof.
  destruct (collect_features_identity_and_label only_ping_answers 1700000000
              {[ "10.0.0.1" := 2%Z ]} (fun q _ => q) (fun _ => None) "10.0.0.1" false
              sample_row sample_collect_returns) as (_ & Hhost & Hlabel).
  split; [exact Hhost | exact Hlabel].
Defined.

Lemma collect_features_ratios_witness :
  ∃ r, sample_row !! "syn_ack_ratio" = Some (VFloat r) ∧ (0 <= r <= 1)%Q.
Proof.
  destruct (collect_features_ratios only_ping_answers 1700000000
              {[ "10.0.0.1" := 2%Z ]} (fun q _ => q) (fun _ => None) "10.0.0.1" false
              sample_row sample_collect_returns) as ((r & Hr & Hunit) & _).
  exists r. split; [exact Hr | exact Hunit].
Defined.

Lemma collect_features_flags_and_count_witness :
  is_flag (sample_row !! "icmp_reachable") ∧ is_flag (sample_row !! "header_modified").
Proof.
  destruct (collect_features_flags_and_count only_ping_answers 1700000000
              {[ "10.0.0.1" := 2%Z ]} (fun q _ => q) (fun _ => None) "10.0.0.1" false
              sample_row sample_collect_returns) as (Hr & Hh & _).
  split; [exact Hr | exact Hh].
Defined.

(** ** The debug flag, and probes that all fail *)

Section Worlds.
Variable time_time : Z.
Variable LABEL_MAP : gmap string Z.
Variable py_round : Q -> Z -> Q.
Variable last_line_float : string -> option Q.

(** The row depends on the world only through what the probes return. *)
Lemma collect_features_ext (run run' : list string -> Z -> run_outcome)
    ip debug debug' :
  (∀ cmd timeout d d', probe run cmd timeout d = probe run' cmd timeout d') →
  collect_features run time_time LABEL_MAP py_round last_line_float ip debug
  = collect_features run' time_time LABEL_MAP py_round last_line_float ip debug'.
Proof.
  intros Hprobe.
  assert (H3 : ∀ f, collect_l3 run ip debug f = collect_l3 run' ip debug' f).
  { intros f. unfold collect_l3. cbv zeta.
    now rewrite !(Hprobe _ _ debug debug'). }
  assert (H4 : ∀ f, collect_l4 run ip debug f = collect_l4 run' ip debug' f).
  { intros f. unfold collect_l4. cbv zeta.
    now rewrite !(Hprobe _ _ debug debug'). }
  assert (Hsweep : ∀ ports f,
    proxy_sweep run ip debug ports f = proxy_sweep run' ip debug' ports f).
  { induction ports as [| port ports IH]; intros f; simpl; [reflexivity |].
    rewrite (Hprobe _ _ debug debug'), IH. reflexivity. }
  assert (H7 : ∀ f, collect_l7 run last_line_float ip debug f
                    = collect_l7 run' last_line_float ip debug' f).
  { intros f. unfold collect_l7, measure_curl_time. cbv zeta.
    rewrite !(Hprobe _ _ debug debug'), (Hprobe _ _ false false).
    now rewrite Hsweep. }
  unfold collect_features. cbv zeta. rewrite H3.
  destruct (collect_l3 run' _ _ _); run_bind; [| reflexivity].
  rewrite H4. destruct (collect_l4 run' _ _ _); run_bind; [| reflexivity].
  now rewrite H7.
Qed.

(** The label is applied last and nothing else reads the label map. *)
Lemma collect_features_label run ip debug :
  collect_features run time_time LABEL_MAP py_round last_line_float ip debug
  = match collect_features run time_time ∅ py_round last_line_float ip debug with
    | Ok features => Ok (apply_label LABEL_MAP ip features)
    | Raise e => Raise e
    end.
Proof.
  unfold collect_features. cbv zeta.
  destruct (collect_l3 _ _ _ _); run_bind; [| reflexivity].
  destruct (collect_l4 _ _ _ _); run_bind; [| reflexivity].
  destruct (format_fields _ _ _); run_bind; reflexivity.
Qed.
End Worlds.

(** X9. The debug flag changes the diagnostics only: [run_command] returns
    the same output with and without it and prints nothing without it, and
    [collect_features] returns the same row or raises the same exception. *)
Theorem debug_changes_diagnostics_only (run : list string -> Z -> run_outcome)
    (time_time : Z) (LABEL_MAP : gmap string Z) (py_round : Q -> Z -> Q)
    (last_line_float : string -> option Q) :
  (∀ cmd timeout debug,
     (run_command run cmd timeout debug).2 = (run_command run cmd timeout false).2)
  ∧ (∀ cmd timeout, (run_command run cmd timeout false).1 = [])
  ∧ (∀ ip debug,
       collect_features run time_time LABEL_MAP py_round last_line_float ip debug
       = collect_features run time_time LABEL_MAP py_round last_line_float ip false).
Proof.
  split; [| split].
  - intros cmd timeout debug. apply (probe_debug run cmd timeout debug).
  - intros cmd timeout. unfold run_command. now destruct (run cmd timeout).
  - intros ip debug. apply collect_features_ext. intros cmd timeout d d'.
    now rewrite (probe_debug run cmd timeout d), (probe_debug run cmd timeout d').
Qed.

(** X10. A host for which every command times out or cannot be run still
    gets a row: not reachable, no filtered port, no proxy header, both
    ratios the rounding of 0, and every measured figure empty. *)
Theorem collect_features_dark_host (run : list string -> Z -> run_outcome)
    (time_time : Z) (LABEL_MAP : gmap string Z) (py_round : Q -> Z -> Q)
    (last_line_float : string -> option Q) (ip : string) (debug : bool) :
  (∀ cmd timeout,
     run cmd timeout = TimeoutExpired ∨ ∃ e, run cmd timeout = RunError e) →
  ∃ row,
    collect_features run time_time LABEL_MAP py_round last_line_float ip debug
    = Ok row
    ∧ row !! "icmp_reachable" = Some (VInt 0)
    ∧ row !! "filtered_ports_count" = Some (VInt 0)
    ∧ row !! "header_modified" = Some (VInt 0)
    ∧ row !! "syn_ack_ratio" = Some (VFloat (py_round 0%Q 3%Z))
    ∧ row !! "tcp_reset_ratio" = Some (VFloat (py_round 0%Q 3%Z))
    ∧ Forall (fun col => row !! col = Some (VStr ""))
        ["avg_latency"; "packet_loss"; "ttl_return"; "scan_time"; "response_time"].
Proof.
  intros Hfail.
  rewrite (collect_features_ext time_time LABEL_MAP py_round last_line_float
             run silent ip debug false)
    by (intros cmd timeout d d'; now rewrite (probe_absent run cmd timeout d (Hfail _ _))).
  rewrite collect_features_label.
  set (r := collect_features silent time_time ∅ py_round last_line_float ip false).
  assert (Hr : r = Ok (row_of r)) by (apply returned_row; vm_compute; reflexivity).
  rewrite Hr. eexists. split; [reflexivity |].
  pose proof (apply_label_modifies LABEL_MAP ip (row_of r)) as ML.
  repeat split; try (rewrite ML by (clear; key_sets); vm_compute; reflexivity).
  repeat constructor; rewrite ML by (clear; key_sets); vm_compute; reflexivity.
Qed.

Lemma collect_features_dark_host_witness :
  ∃ row, collect_features silent 1700000000 ∅ (fun q _ => q) (fun _ => None)
           "10.0.0.9" true = Ok row
         ∧ row !! "icmp_reachable" = Some (VInt 0)
         ∧ row !! "syn_ack_ratio" = Some (VFloat 0).
Proof.
  destruct (collect_features_dark_host silent 1700000000 ∅ (fun q _ => q)
              (fun _ => None) "10.0.0.9" true) as (row & Hrow & Hr & _ & _ & Hs & _).
  - intros cmd timeout. left. reflexivity.
  - exists row. split; [exact Hrow |]. split; [exact Hr | exact Hs].
Defined.

(** X11. An exception raised while parsing the first ping is not absorbed
    by [collect_features]: it raises the same exception, and the loop of
    [main] then drops the host with a warning. *)
Theorem parse_error_drops_the_host (run : list string -> Z -> run_outcome)
    (time_time : Z) (LABEL_MAP : gmap string Z) (py_round : Q -> Z -> Q)
    (last_line_float : string -> option Q) (ip : string) (debug : bool) (e : exn) :
  parse_ping (probe run ["ping"; "-c"; "5"; ip] 10 debug) = Raise e →
  collect_features run time_time LABEL_MAP py_round last_line_float ip debug
  = Raise e
  ∧ collect_sequential
      (fun ip => collect_features run time_time LABEL_MAP py_round last_line_float
                   ip debug) [ip]
    = ([], [ErrorCollecting ip e]).
Proof.
  intros Hping.
  assert (Hraise : collect_features run time_time LABEL_MAP py_round
                     last_line_float ip debug = Raise e).
  { unfold collect_features, collect_l3. cbv zeta. now rewrite Hping. }
  split; [exact Hraise |].
  unfold collect_sequential. simpl. now rewrite Hraise.
Qed.

Lemma parse_error_drops_the_host_witness :
  collect_features garbled_ping_answers 1700000000 ∅ (fun q _ => q) (fun _ => None)
    "10.0.0.1" false = Raise ValueError.
Proof.
  apply (parse_error_drops_the_host garbled_ping_answers 1700000000 ∅ (fun q _ => q)
           (fun _ => None) "10.0.0.1" false ValueError).
  vm_compute. reflexivity.
Defined.

(** ** Composing writes *)

Section Writes.
Variable repr_float : Q -> string.

Lemma write_csv_unfold data output_file append fs :
  write_csv repr_float data output_file append fs
  = <[output_file :=
        (if append && bool_decide (is_Some (fs !! output_file))
         then default [] (fs !! output_file)
         else [FEATURE_COLUMNS]) ++ map (csv_record repr_float) data]> fs.
Proof.
  unfold write_csv. cbv zeta. rewrite append_records.
  now destruct (append && _).
Qed.

(** X12. [write_csv] touches one file only; appending a second batch to
    the file a first call wrote gives the file one call with both batches
    would have written; and a call without [append] forgets what the file
    held. *)
Theorem write_csv_composes (data1 data2 : list (gmap string pyval))
    (output_file : string) (append : bool) (fs : gmap string (list (list string))) :
  (∀ other, other ≠ output_file →
     write_csv repr_float data1 output_file append fs !! other = fs !! other)
  ∧ write_csv repr_float data2 output_file true
      (write_csv repr_float data1 output_file append fs)
    = write_csv repr_float (data1 ++ data2) output_file append fs
  ∧ (∀ old,
       write_csv repr_float data1 output_file false (<[output_file := old]> fs)
       = write_csv repr_float data1 output_file false fs).
Proof.
  split; [| split].
  - intros other Hother. rewrite write_csv_unfold. now apply lookup_insert_ne.
  - rewrite (write_csv_unfold data2), (write_csv_unfold data1),
      (write_csv_unfold (data1 ++ data2)).
    rewrite lookup_insert_eq, insert_insert_eq.
    rewrite bool_decide_eq_true_2 by eauto. simpl.
    now rewrite map_app, app_assoc.
  - intros old. rewrite !write_csv_unfold. simpl. apply insert_insert_eq.
Qed.

Lemma main_loop_step batch batches iteration output fs total :
  batch ≠ [] →
  main_loop repr_float iteration (batch :: batches) output fs total
  = main_loop repr_float (S iteration) batches output
      (write_csv repr_float batch output (bool_decide (0 < iteration)) fs)
      (total + length batch).
Proof. destruct batch; [contradiction | reflexivity]. Qed.

(** The rest of the loop once the file exists: every batch is appended. *)
Lemma main_loop_appends batches iteration output fs total old :
  0 < iteration → fs !! output = Some old →
  ∃ fs',
    main_loop repr_float iteration batches output fs total
    = (fs', total + length (concat batches))
    ∧ fs' !! output = Some (old ++ map (csv_record repr_float) (concat batches))
    ∧ ∀ other, other ≠ output → fs' !! other = fs !! other.
Proof.
  revert iteration fs total old.
  induction batches as [| batch batches IH]; intros iteration fs total old Hit Hold.
  - exists fs. simpl. rewrite Nat.add_0_r, app_nil_r. auto.
  - destruct (decide (batch = [])) as [-> | Hne].
    + destruct (IH (S iteration) fs total old) as (fs' & Hloop & Hfile & Hother);
        [lia | exact Hold |].
      exists fs'. auto.
    + rewrite (main_loop_step _ _ _ _ _ _ Hne).
      rewrite bool_decide_eq_true_2 by exact Hit.
      destruct (IH (S iteration) (write_csv repr_float batch output true fs)
                  (total + length batch)
                  (old ++ map (csv_record repr_float) batch))
        as (fs' & Hloop & Hfile & Hother); [lia | |].
      { rewrite write_csv_unfold, lookup_insert_eq, Hold.
        now rewrite bool_decide_eq_true_2 by eauto. }
      exists fs'. split; [| split].
      * rewrite Hloop. f_equal. simpl concat. rewrite length_app. lia.
      * rewrite Hfile. simpl concat. now rewrite map_app, app_assoc.
      * intros other Hne'. rewrite (Hother other Hne'), write_csv_unfold.
        now apply lookup_insert_ne.
Qed.

(** X13. When the first iteration collects at least one row, the run
    leaves a file that starts with one header and holds the records of all
    iterations in order, whatever the path held before; [total_collected]
    is the number of those records, the exit status is 0, and no other
    file is touched. *)
Theorem main_loop_writes_one_header (batch : list (gmap string pyval))
    (batches : list (list (gmap string pyval))) (output : string)
    (fs : gmap string (list (list string))) :
  batch ≠ [] →
  ∃ fs' total,
    main_loop repr_float 0 (batch :: batches) output fs 0 = (fs', total)
    ∧ fs' !! output
      = Some (FEATURE_COLUMNS
              :: map (csv_record repr_float) (concat (batch :: batches)))
    ∧ total = length (concat (batch :: batches))
    ∧ main_exit_status total = 0%Z
    ∧ ∀ other, other ≠ output → fs' !! other = fs !! other.
Proof.
  intros Hne. rewrite (main_loop_step _ _ _ _ _ _ Hne).
  rewrite bool_decide_eq_false_2 by lia.
  destruct (main_loop_appends batches 1 output
              (write_csv repr_float batch output false fs) (0 + length batch)
              (FEATURE_COLUMNS :: map (csv_record repr_float) batch))
    as (fs' & Hloop & Hfile & Hother); [lia | |].
  { now rewrite write_csv_unfold, lookup_insert_eq. }
  exists fs', (length (concat (batch :: batches))).
  split; [| split; [| split; [reflexivity | split]]].
  - rewrite Hloop. f_equal. simpl concat. rewrite length_app. lia.
  - rewrite Hfile. simpl concat. now rewrite map_app.
  - unfold main_exit_status. rewrite bool_decide_eq_true_2; [reflexivity |].
    simpl concat. rewrite length_app.
    destruct batch; [contradiction | simpl; lia].
  - intros other Hother'. rewrite (Hother other Hother'), write_csv_unfold.
    now apply lookup_insert_ne.
Qed.

(** X14. When no iteration collects a row the run writes nothing at all
    and ends with exit status 1. *)
Theorem main_loop_without_rows (batches : list (list (gmap string pyval)))
    (iteration : nat) (output : string) (fs : gmap string (list (list string))) :
  Forall (fun batch => batch = []) batches →
  main_loop repr_float iteration batches output fs 0 = (fs, 0)
  ∧ main_exit_status 0 = 1%Z.
Proof.
  intros Hall. split; [| reflexivity]. revert iteration.
  induction Hall as [| batch batches -> _ IH]; intros iteration; [reflexivity |].
  cbn [main_loop]. apply IH.
Qed.

End Writes.

Lemma write_csv_composes_witness :
  write_csv sample_repr sample_batch "dataset.csv" true ∅ !! "labels.csv" = None.
Proof.
  rewrite (proj1 (write_csv_composes sample_repr sample_batch [] "dataset.csv" true ∅)
             "labels.csv"); [reflexivity | discriminate].
Defined.

Lemma main_loop_writes_one_header_witness :
  ∃ fs' total,
    main_loop sample_repr 0 [sample_batch; []; sample_batch] "dataset.csv" ∅ 0
    = (fs', total)
    ∧ total = 4.
Proof.
  destruct (main_loop_writes_one_header sample_repr sample_batch [[]; sample_batch]
              "dataset.csv" ∅) as (fs' & total & Hloop & _ & Htotal & _).
  - discriminate.
  - exists fs', total. split; [exact Hloop | exact Htotal].
Defined.

Lemma main_loop_without_rows_witness :
  main_loop sample_repr 0 [[]; []] "dataset.csv" ∅ 0 = (∅, 0).
Proof.
  apply (main_loop_without_rows sample_repr [[]; []] 0 "dataset.csv" ∅).
  repeat constructor.
Defined.

(** ** Any number of failing hosts *)

Lemma returned_rows_return row ip futures :
  returned_rows ((Ok row, ip) :: futures) = row :: returned_rows futures.
Proof. reflexivity. Qed.

Lemma raised_warnings_return (row : gmap string pyval) ip futures :
  raised_warnings ((Ok row, ip) :: futures) = raised_warnings futures.
Proof. reflexivity. Qed.

Lemma rows_and_warnings_count (futures : list (result (gmap string pyval) * string)) :
  length (returned_rows futures) + length (raised_warnings futures) = length futures.
Proof.
  induction futures as [| [[row | e] ip] futures IH]; [reflexivity | |].
  - rewrite returned_rows_return, raised_warnings_return. simpl. lia.
  - rewrite returned_rows_raise, raised_warnings_raise. simpl. lia.
Qed.

(** X15. Whatever the hosts do, each of them ends as exactly one row or
    one warning; the sequential loop keeps the rows in target order, and
    the worker pool ends with a rearrangement of the same rows and the
    same warnings. *)
Theorem every_host_gives_a_row_or_a_warning
    (collect : string -> result (gmap string pyval)) (targets : list string)
    (completed : list (result (gmap string pyval) * string)) :
  as_completed (submit_all collect targets) completed →
  let sequential := collect_sequential collect targets in
  let pooled := collect_completed completed in
  length sequential.1 + length sequential.2 = length targets
  ∧ sequential.1
    = omap (fun ip => match collect ip with Ok row => Some row | Raise _ => None end)
        targets
  ∧ pooled.1 ≡ₚ sequential.1
  ∧ pooled.2 ≡ₚ sequential.2.
Proof.
  intros Hdone. cbv zeta. unfold as_completed in Hdone.
  rewrite collect_sequential_completed, !collect_completed_all. simpl.
  split; [| split; [| split]].
  - rewrite rows_and_warnings_count. apply length_map.
  - clear Hdone. unfold submit_all.
    induction targets as [| ip targets IH]; [reflexivity |].
    cbn [map]. destruct (collect ip) eqn:Hip.
    + rewrite returned_rows_return. cbn [omap list_omap]. rewrite Hip.
      f_equal. exact IH.
    + rewrite returned_rows_raise. cbn [omap list_omap]. rewrite Hip. exact IH.
  - unfold returned_rows. now rewrite Hdone.
  - unfold raised_warnings. now rewrite Hdone.
Qed.

Lemma every_host_gives_a_row_or_a_warning_witness :
  let targets := ["10.0.0.1"; "10.0.0.2"; "10.0.0.3"] in
  length (collect_sequential second_host_fails targets).1
  + length (collect_sequential second_host_fails targets).2 = 3.
Proof.
  cbv zeta.
  destruct (every_host_gives_a_row_or_a_warning second_host_fails
              ["10.0.0.1"; "10.0.0.2"; "10.0.0.3"]
              (reverse (submit_all second_host_fails
                          ["10.0.0.1"; "10.0.0.2"; "10.0.0.3"]))) as (Hlen & _).
  - unfold as_completed. symmetry. apply reverse_Permutation.
  - exact Hlen.
Defined.

(** ** The classifier's view of a row *)

Lemma feature_values_present (features : gmap string pyval) (cols : list string) :
  Forall (fun col => is_Some (features !! col)) cols →
  feature_values features cols = Ok (map (item features) cols).
Proof.
  induction 1 as [| col cols [v Hv] _ IH]; [reflexivity |].
  simpl. unfold getitem, item. rewrite Hv, IH. reflexivity.
Qed.

(** The text written for each column of a row. *)
Lemma csv_record_field (repr_float : Q -> string) (row : gmap string pyval) i col :
  FEATURE_COLUMNS !! i = Some col →
  csv_record repr_float row !! i = Some (csv_text repr_float (cell row col)).
Proof.
  intros Hi.
  do 13 (destruct i as [| i]; [injection Hi as <-; reflexivity |]).
  discriminate.
Qed.

Section Consumers.
Variable subprocess_run : list string -> Z -> run_outcome.
Variable time_time : Z.
Variable LABEL_MAP : gmap string Z.
Variable py_round : Q -> Z -> Q.
Variable last_line_float : string -> option Q.
Variable repr_float : Q -> string.

(** X16. [classify_host] reads the ten model features of a collected row
    without a [KeyError]: they are the columns of [FEATURE_COLUMNS] between
    the host and the label, in the same order, and every returned row has
    them all. *)
Theorem classify_host_reads_every_feature ip debug row :
  collect_features subprocess_run time_time LABEL_MAP py_round last_line_float
    ip debug = Ok row →
  model_features = take 10 (drop 2 FEATURE_COLUMNS)
  ∧ ∃ values,
      feature_values row model_features = Ok values
      ∧ length values = 10
      ∧ values = map (item row) model_features.
Proof.
  intros [_ Hsub]%collect_features_modifies. split; [reflexivity |].
  exists (map (item row) model_features). split; [| split; reflexivity].
  apply feature_values_present. unfold model_features.
  repeat constructor; apply elem_of_dom, Hsub; clear; key_sets.
Qed.

(** X17. The record written for a collected row starts with the time
    stamp and the address that was probed and ends with the label, empty
    when the label map has no entry for the address. *)
Theorem written_record_names_host_and_label ip debug row :
  collect_features subprocess_run time_time LABEL_MAP py_round last_line_float
    ip debug = Ok row →
  length (csv_record repr_float row) = 13
  ∧ csv_record repr_float row !! 0 = Some (py_str_int time_time)
  ∧ csv_record repr_float row !! 1 = Some ip
  ∧ csv_record repr_float row !! 12
    = Some (match LABEL_MAP !! ip with
            | Some label => py_str_int label
            | None => ""
            end).
Proof.
  intros Hrow. pose proof Hrow as [Hmod _]%collect_features_modifies.
  assert (Htime : row !! "timestamp" = Some (VInt time_time)).
  { rewrite Hmod by (clear; key_sets). vm_compute. reflexivity. }
  assert (Hhost : row !! "host" = Some (VStr ip)).
  { rewrite Hmod by (clear; key_sets). vm_compute. reflexivity. }
  split; [reflexivity |]. split; [| split].
  - rewrite (csv_record_field repr_float row 0 "timestamp" eq_refl).
    unfold cell. now rewrite Htime.
  - rewrite (csv_record_field repr_float row 1 "host" eq_refl).
    unfold cell. rewrite Hhost. simpl. now destruct ip.
  - rewrite (csv_record_field repr_float row 12 "firewall_label" eq_refl).
    apply collect_features_phases in Hrow as (f3 & f4 & f5 & H3 & H4 & H5 & ->).
    assert (Hempty : f5 !! "firewall_label" = Some (VStr "")).
    { rewrite (format_fields_modifies _ _ _ _ H5) by (clear; key_sets).
      rewrite (collect_l7_modifies subprocess_run last_line_float ip debug f4)
        by (clear; key_sets).
      rewrite (collect_l4_modifies _ _ _ _ _ H4) by (clear; key_sets).
      rewrite (collect_l3_modifies _ _ _ _ _ H3) by (clear; key_sets).
      vm_compute. reflexivity. }
    unfold cell, apply_label. destruct (LABEL_MAP !! ip).
    + now rewrite lookup_insert_eq.
    + now rewrite Hempty.
Qed.
End Consumers.

Lemma classify_host_reads_every_feature_witness :
  ∃ values, feature_values sample_row model_features = Ok values ∧ length values = 10.
Proof.
  destruct (classify_host_reads_every_feature only_ping_answers 1700000000
              {[ "10.0.0.1" := 2%Z ]} (fun q _ => q) (fun _ => None) "10.0.0.1" false
              sample_row sample_collect_returns) as (_ & values & Hv & Hlen & _).
  exists values. split; [exact Hv | exact Hlen].
Defined.

Lemma written_record_names_host_and_label_witness :
  csv_record sample_repr sample_row !! 1 = Some "10.0.0.1"
  ∧ csv_record sample_repr sample_row !! 12 = Some "2".
Proof.
  destruct (written_record_names_host_and_label only_ping_answers 1700000000
              {[ "10.0.0.1" := 2%Z ]} (fun q _ => q) (fun _ => None) sample_repr
              "10.0.0.1" false sample_row sample_collect_returns)
    as (_ & _ & Hhost & Hlabel).
  split; [exact Hhost | exact Hlabel].
Defined.

(** ** What a match can be *)

Section Soundness.
Context {A : Type}.
Variable fl : flags.

Lemma greedy_sound cs rs sn g (k : @cont A) a :
  greedy cs sn rs g k = Some a →
  ∃ w rs', rs = w ++ rs' ∧ forallb (in_set cs) w = true
           ∧ k (Cursor (rev w ++ sn) rs') g = Some a.
Proof.
  revert sn. induction rs as [| c rs IH]; intros sn; simpl.
  - intros H. exists [], []. auto.
  - destruct (in_set cs c) eqn:Hc; [| intros H; exists [], (c :: rs); auto].
    destruct (greedy cs (c :: sn) rs g k) as [a' |] eqn:Hg.
    + intros [= <-]. destruct (IH _ Hg) as (w & rs' & -> & Hw & Hk).
      exists (c :: w), rs'. simpl. rewrite Hc, Hw, <- app_assoc. auto.
    + intros H. exists [], (c :: rs). auto.
Qed.

Lemma lazy_sound cs rs sn g (k : @cont A) a :
  lazy cs sn rs g k = Some a →
  ∃ w rs', rs = w ++ rs' ∧ forallb (in_set cs) w = true
           ∧ k (Cursor (rev w ++ sn) rs') g = Some a.
Proof.
  revert sn. induction rs as [| c rs IH]; intros sn; simpl.
  - destruct (k (Cursor sn []) g) eqn:Hk; [| discriminate].
    intros [= <-]. exists [], []. auto.
  - destruct (k (Cursor sn (c :: rs)) g) eqn:Hk.
    + intros [= <-]. exists [], (c :: rs). auto.
    + destruct (in_set cs c) eqn:Hc; [| discriminate].
      intros (w & rs' & -> & Hw & Hk')%IH.
      exists (c :: w), rs'. simpl. rewrite Hc, Hw, <- app_assoc. auto.
Qed.

Lemma one_sound (p : ascii -> bool) sn rs g (k : @cont A) a :
  one p (Cursor sn rs) g k = Some a →
  ∃ x rs', rs = x :: rs' ∧ p x = true ∧ k (Cursor (x :: sn) rs') g = Some a.
Proof.
  unfold one. simpl. destruct rs as [| x rs]; [discriminate |].
  destruct (p x) eqn:Hp; [| discriminate]. eauto.
Qed.

(** A successful match consumed a text of the pattern and handed the
    position after it, with the captured group, to what follows. *)
Lemma rmatch_sound r : ∀ sn rs g (k : @cont A) a,
  rmatch fl r (Cursor sn rs) g k = Some a →
  ∃ w rs' g', rs = w ++ rs' ∧ lang fl r w
              ∧ k (Cursor (rev w ++ sn) rs') g' = Some a
              ∧ group_after fl r g g'.
Proof.
  induction r as [| c | cs | cs | cs | cs | r1 IH1 | r1 IH1 r2 IH2 | r1 IH1 r2 IH2
                  | r1 IH1 |]; intros sn rs g k a; cbn [rmatch seen rest].
  - intros H. exists [], rs, g.
    split; [reflexivity | split; [reflexivity | split; [exact H | now right]]].
  - intros (x & rs' & -> & Hx & Hk)%one_sound. exists [x], rs', g.
    split; [reflexivity | split; [simpl; eauto | split; [exact Hk | now right]]].
  - intros (x & rs' & -> & Hx & Hk)%one_sound. exists [x], rs', g.
    split; [reflexivity | split; [simpl; eauto | split; [exact Hk | now right]]].
  - intros (w & rs' & -> & Hw & Hk)%greedy_sound. exists w, rs', g.
    split; [reflexivity | split; [exact Hw | split; [exact Hk | now right]]].
  - intros (x & rs1 & -> & Hx & Hk)%one_sound. cbn [seen rest] in Hk.
    apply greedy_sound in Hk as (w & rs' & -> & Hw & Hk).
    exists (x :: w), rs', g.
    split; [reflexivity | split; [| split; [| now right]]].
    + simpl. rewrite Hx, Hw. split; [discriminate | reflexivity].
    + simpl. now rewrite <- app_assoc.
  - intros (w & rs' & -> & Hw & Hk)%lazy_sound. exists w, rs', g.
    split; [reflexivity | split; [exact Hw | split; [exact Hk | now right]]].
  - destruct (rmatch fl r1 (Cursor sn rs) g k) as [a' |] eqn:H1.
    + intros [= <-]. apply IH1 in H1 as (w & rs' & g' & -> & Hw & Hk & Hg).
      exists w, rs', g'.
      split; [reflexivity | split; [now right | split; [exact Hk |]]].
      destruct Hg as [(u & -> & Hu) | [_ ->]]; [left; eauto | now right].
    + intros H. exists [], rs, g.
      split; [reflexivity | split; [now left | split; [exact H | now right]]].
  - intros (w1 & rs1 & g1 & -> & Hw1 & Hk1 & Hg1)%IH1.
    apply IH2 in Hk1 as (w2 & rs' & g' & -> & Hw2 & Hk & Hg2).
    exists (w1 ++ w2), rs', g'.
    split; [now rewrite <- app_assoc | split; [simpl; eauto | split]].
    + now rewrite rev_app_distr, <- app_assoc.
    + destruct Hg2 as [(u & -> & Hu) | [Hs2 ->]]; [left; simpl; eauto |].
      destruct Hg1 as [(u & -> & Hu) | [Hs1 ->]]; [left; simpl; eauto |].
      right. simpl. now rewrite Hs1, Hs2.
  - destruct (rmatch fl r1 (Cursor sn rs) g k) as [a' |] eqn:H1.
    + intros [= <-]. apply IH1 in H1 as (w & rs' & g' & -> & Hw & Hk & Hg).
      exists w, rs', g'.
      split; [reflexivity | split; [now left | split; [exact Hk |]]].
      destruct Hg as [(u & -> & Hu) | [Hs ->]]; [left; simpl; eauto |].
      right. simpl. now rewrite Hs.
    + intros (w & rs' & g' & -> & Hw & Hk & Hg)%IH2.
      exists w, rs', g'.
      split; [reflexivity | split; [now right | split; [exact Hk |]]].
      destruct Hg as [(u & -> & Hu) | [Hs ->]]; [left; simpl; eauto |].
      right. simpl. now rewrite Hs, andb_false_r.
  - intros (w & rs' & g' & -> & Hw & Hk & _)%IH1.
    unfold between in Hk. cbn [rest] in Hk.
    rewrite length_app, Nat.add_sub, take_app_length in Hk.
    exists w, rs', (Some (text w)).
    split; [reflexivity | split; [exact Hw | split; [exact Hk |]]].
    left. exists w. split; [reflexivity | now left].
  - destruct (at_line_start fl (Cursor sn rs)); [| discriminate].
    intros H. exists [], rs, g.
    split; [reflexivity | split; [reflexivity | split; [exact H | now right]]].
Qed.
End Soundness.

(** A search that succeeds found a text of the pattern inside the
    subject. *)
Lemma search_from_sound fl r rs : ∀ sn m,
  search_from fl r sn rs = Some m →
  ∃ pre w post, rs = pre ++ w ++ post ∧ lang fl r w
                ∧ group_after fl r None (m_group m).
Proof.
  induction rs as [| c rs IH]; intros sn m; cbn [search_from].
  - destruct (match_at fl r (Cursor sn [])) as [m' |] eqn:Hm; [| discriminate].
    intros [= <-]. unfold match_at in Hm.
    apply rmatch_sound in Hm as (w & rs' & g' & Hrs & Hw & [= <-] & Hg).
    exists [], w, rs'. auto.
  - destruct (match_at fl r (Cursor sn (c :: rs))) as [m' |] eqn:Hm.
    + intros [= <-]. unfold match_at in Hm.
      apply rmatch_sound in Hm as (w & rs' & g' & Hrs & Hw & [= <-] & Hg).
      exists [], w, rs'. auto.
    + intros (pre & w & post & -> & Hw & Hg)%IH.
      exists (c :: pre), w, post. auto.
Qed.

Lemma re_search_sound r s fl m :
  re_search r s fl = Some m →
  ∃ pre w post, chars s = pre ++ w ++ post ∧ lang fl r w
                ∧ group_after fl r None (m_group m).
Proof. apply search_from_sound. Qed.

(** The group of a pattern that always passes through one. *)
Lemma re_search_group r s fl m :
  sets_group r = true → re_search r s fl = Some m →
  ∃ u, group1 m = text u ∧ in_group fl r u.
Proof.
  intros Hsets (pre & w & post & _ & _ & Hg)%re_search_sound.
  destruct Hg as [(u & Hu & Hin) | [Hno _]]; [| congruence].
  exists u. unfold group1. now rewrite Hu.
Qed.



(** ** Conversions that cannot fail *)

Lemma digit_is_not_point c : is_digit c = true → Ascii.eqb c "." = false.
Proof.
  intros Hc. apply Ascii.eqb_neq. intros ->. discriminate.
Qed.

Lemma split_point_digits (d rest : list ascii) :
  forallb is_digit d = true →
  split_point (d ++ rest) = (d ++ (split_point rest).1, (split_point rest).2).
Proof.
  induction d as [| c d IH]; simpl.
  - intros _. now destruct (split_point rest).
  - intros [Hc Hd]%andb_true_iff. rewrite (digit_is_not_point c Hc), (IH Hd).
    reflexivity.
Qed.

Lemma point_only_matches_point x : lit_matches IGNORECASE "." x = true → x = "."%char.
Proof.
  destruct x as [[] [] [] [] [] [] [] []]; vm_compute; intros H;
    solve [reflexivity | discriminate].
Qed.

(** [float] accepts every text of the form digits, optional point,
    digits. *)
Lemma py_float_accepts_decimal (u : list ascii) :
  lang IGNORECASE (Cat (Plus Digit) (Cat (Opt (Lit ".")) (Star Digit))) u →
  ∃ q, py_float (text u) = Ok q.
Proof.
  simpl. intros (d1 & w & -> & [Hne Hd1] & p & d2 & -> & Hp & Hd2).
  change (forallb is_digit d1 = true) in Hd1.
  change (forallb is_digit d2 = true) in Hd2.
  unfold py_float. rewrite chars_text, (split_point_digits d1 _ Hd1).
  assert (Hsplit : ∃ tail, split_point (p ++ d2) = ([], Some d2) ∧ tail = d2
                           ∨ split_point (p ++ d2) = (d2, None) ∧ p = [] ∧ tail = []).
  { destruct Hp as [-> | (x & -> & ->%point_only_matches_point)].
    - exists []. right. simpl.
      rewrite <- (app_nil_r d2) at 1. rewrite (split_point_digits d2 [] Hd2).
      simpl. now rewrite app_nil_r.
    - exists d2. left. auto. }
  destruct Hsplit as (tail & [[-> _] | (-> & _ & _)]); simpl.
  - rewrite app_nil_r, Hd1, Hd2. simpl.
    rewrite bool_decide_eq_false_2 by (destruct d1; [contradiction | discriminate]).
    eauto.
  - rewrite forallb_app, Hd1, Hd2, app_nil_r. simpl.
    rewrite bool_decide_eq_false_2 by (destruct d1; [contradiction | discriminate]).
    eauto.
Qed.

Lemma ttl_group_converts out m :
  re_search re_ttl out IGNORECASE = Some m → ∃ n, py_int (group1 m) = Ok n.
Proof.
  intros (u & -> & Hu)%re_search_group; [| reflexivity].
  cbn in Hu. destruct Hu as [Hu | [[Hne Hd] | []]]; [intuition |].
  change (forallb is_digit u = true) in Hd.
  exists (int_of_digits u). unfold py_int. rewrite chars_text, Hd.
  now rewrite bool_decide_eq_false_2.
Qed.

Lemma loss_group_converts out m :
  re_search re_loss out IGNORECASE = Some m → ∃ q, py_float (group1 m) = Ok q.
Proof.
  intros (u & -> & Hu)%re_search_group; [| reflexivity].
  apply py_float_accepts_decimal.
  cbn [in_group re_loss lit lit_chars chars list_ascii_of_string] in Hu.
  destruct Hu as [[Hu | Hu] | Hu]; [exact Hu | |].
  - cbn in Hu. intuition.
  - cbn in Hu. intuition.
Qed.

(** ** When the parsers raise *)

Lemma first_rtt_raise_inv patterns out f e :
  first_rtt patterns out f = Raise e →
  e = ValueError
  ∧ ∃ pattern m, In pattern patterns
                 ∧ re_search pattern out IGNORECASE = Some m
                 ∧ py_float (group1 m) = Raise ValueError.
Proof.
  induction patterns as [| pattern patterns IH]; simpl; [discriminate |].
  destruct (re_search pattern out IGNORECASE) as [m |] eqn:Hm.
  - destruct (py_float (group1 m)) as [q |] eqn:Hq; run_bind; [discriminate |].
    intros [= <-]. pose proof (py_float_raises_value_error _ _ Hq) as ->.
    split; [reflexivity |]. exists pattern, m. auto.
  - intros (-> & pattern' & m & Hin & Hs & Hq)%IH.
    split; [reflexivity |]. exists pattern', m. auto.
Qed.

Lemma parse_ping_raise_inv output e :
  parse_ping output = Raise e →
  e = ValueError
  ∧ ∃ pattern m, In pattern rtt_patterns
                 ∧ re_search pattern (default "" output) IGNORECASE = Some m
                 ∧ py_float (group1 m) = Raise ValueError.
Proof.
  unfold parse_ping. destruct (not_output output); [discriminate |].
  cbv zeta. set (out := default "" output).
  assert (Hloss : ∀ f,
    (match re_search re_loss out IGNORECASE with
     | Some loss_match =>
         q ← py_float (group1 loss_match);
         Ok (<["packet_loss" := VFloat q]> f)
     | None => Ok f
     end ≫= first_rtt rtt_patterns out) = Raise e →
    e = ValueError
    ∧ ∃ pattern m, In pattern rtt_patterns
                   ∧ re_search pattern out IGNORECASE = Some m
                   ∧ py_float (group1 m) = Raise ValueError).
  { intros f. destruct (re_search re_loss out IGNORECASE) as [ml |] eqn:Hml.
    - destruct (loss_group_converts _ _ Hml) as [q ->]. run_bind.
      apply first_rtt_raise_inv.
    - run_bind. apply first_rtt_raise_inv. }
  destruct (_ || _).
  - destruct (re_search re_ttl out IGNORECASE) as [mt |] eqn:Hmt.
    + destruct (ttl_group_converts _ _ Hmt) as [n ->]. run_bind. apply Hloss.
    + run_bind. apply Hloss.
  - run_bind. apply Hloss.
Qed.






(** ** When the aggregator raises *)

Lemma parsed_float_nonneg v : parsed_float v → empty_or_nonneg_float (Some v).
Proof.
  intros [-> | (m & q & Hq & ->)]; [now left |].
  right. exists q. split; [reflexivity | eapply py_float_nonneg, Hq].
Qed.

Lemma nonneg_formattable v : empty_or_nonneg_float v → formattable v.
Proof. intros [-> | (q & -> & _)]; [now left | right; eauto]. Qed.

Lemma parse_hping3_returns output sent_count :
  ∃ r, parse_hping3 output sent_count = Ok r.
Proof.
  unfold parse_hping3. destruct (not_output output); [eauto |]. cbv zeta.
  match goal with |- context [py_truediv (Z.of_nat ?c) _] =>
    destruct (guarded_ratio c sent_count) as (ratio & -> & _) end.
  run_bind. eauto.
Qed.

Lemma parse_hping3_rst_returns output sent_count :
  ∃ r, parse_hping3_rst output sent_count = Ok r.
Proof.
  unfold parse_hping3_rst. destruct (not_output output); [eauto |]. cbv zeta.
  match goal with |- context [py_truediv (Z.of_nat ?c) _] =>
    destruct (guarded_ratio c sent_count) as (ratio & -> & _) end.
  run_bind. eauto.
Qed.

Lemma parse_nmap_scan_time output f :
  parse_nmap output = Ok f → empty_or_nonneg_float (f !! "scan_time").
Proof.
  unfold parse_nmap. destruct (not_output output).
  { intros [= <-]. left. vm_compute. reflexivity. }
  cbv zeta. destruct (re_search re_scan_time _ _) as [m |].
  - destruct (py_float (group1 m)) as [q |] eqn:Hq; run_bind; [| discriminate].
    intros [= <-]. right. exists q.
    split; [apply lookup_insert_eq | eapply py_float_nonneg, Hq].
  - intros [= <-]. left. rewrite lookup_insert_ne by discriminate.
    rewrite lookup_insert_ne by discriminate. apply lookup_singleton_eq.
Qed.

Lemma parse_nmap_raise_inv output e : parse_nmap output = Raise e → e = ValueError.
Proof.
  unfold parse_nmap. destruct (not_output output); [discriminate |].
  cbv zeta. destruct (re_search re_scan_time _ _) as [m |]; [| discriminate].
  destruct (py_float (group1 m)) as [q |] eqn:Hq; run_bind; [discriminate |].
  intros [= <-]. eapply py_float_raises_value_error, Hq.
Qed.

Section Failures.
Variable subprocess_run : list string -> Z -> run_outcome.
Variable time_time : Z.
Variable LABEL_MAP : gmap string Z.
Variable py_round : Q -> Z -> Q.
Variable last_line_float : string -> option Q.

(** The two ping phases fail only when [parse_ping] does, and leave
    figures the formatting loop accepts. *)
Lemma collect_l3_outcome ip debug features :
  match collect_l3 subprocess_run ip debug features with
  | Ok f =>
      empty_or_nonneg_float (f !! "avg_latency")
      ∧ empty_or_nonneg_float (f !! "packet_loss")
  | Raise e =>
      parse_ping (probe subprocess_run ["ping"; "-c"; "5"; ip] 10 debug) = Raise e
      ∨ parse_ping (probe subprocess_run ["ping"; "-c"; "5"; "-s"; "1400"; ip]
                      10 debug) = Raise e
  end.
Proof.
  unfold collect_l3. cbv zeta.
  destruct (parse_ping (probe _ ["ping"; "-c"; "5"; ip] _ _)) as [f1 | e1] eqn:Hping;
    run_bind; [| now left].
  apply parse_ping_fields in Hping as (lat & loss & ttl & -> & Hlat & Hloss & _).
  set (reach := VInt _).
  destruct (ping_map_lookup lat loss ttl reach) as (Hl & Hp & _ & _).
  assert (Hul : update features (ping_map lat loss ttl reach) !! "avg_latency" = Some lat)
    by (apply lookup_union_Some_l, Hl).
  assert (Hup : update features (ping_map lat loss ttl reach) !! "packet_loss" = Some loss)
    by (apply lookup_union_Some_l, Hp).
  destruct (not_output _).
  { rewrite Hul, Hup. split; now apply parsed_float_nonneg. }
  destruct (parse_ping (probe _ ("ping" :: _ :: _ :: "-s" :: _) _ _)) as [f2 | e2]
    eqn:Hlarge; run_bind; [| now right].
  apply parse_ping_fields in Hlarge as (lat2 & loss2 & ttl2 & -> & _ & Hloss2 & _).
  set (reach2 := VInt _).
  destruct (ping_map_lookup lat2 loss2 ttl2 reach2) as (_ & Hp2 & _ & _).
  unfold item. rewrite Hp2, Hup. simpl default.
  assert (Hreplace : ∃ replace : bool,
    (if truthy loss2
     then if negb (truthy loss) then Ok true else py_gt loss2 loss
     else Ok false) = Ok replace).
  { destruct Hloss2 as [-> | (m2 & q2 & _ & ->)]; [simpl; eauto |].
    destruct (truthy (VFloat q2)); [| eauto].
    destruct Hloss as [-> | (m1 & q1 & _ & ->)]; [simpl; eauto |].
    destruct (negb (truthy (VFloat q1))); [eauto |]. unfold py_gt. simpl. eauto. }
  destruct Hreplace as [replace ->]. run_bind.
  destruct replace.
  - rewrite lookup_insert_ne by discriminate. rewrite lookup_insert_eq, Hul.
    split; now apply parsed_float_nonneg.
  - rewrite Hul, Hup. split; now apply parsed_float_nonneg.
Qed.

Lemma collect_l4_outcome ip debug features :
  match collect_l4 subprocess_run ip debug features with
  | Ok f => empty_or_nonneg_float (f !! "scan_time")
  | Raise e =>
      parse_nmap (probe subprocess_run ["nmap"; "-sS"; "-p"; "1-1024"; ip; "-oN"; "-"]
                    120 debug) = Raise e
  end.
Proof.
  unfold collect_l4. cbv zeta.
  destruct (parse_nmap _) as [g | e] eqn:Hnmap; run_bind; [| reflexivity].
  match goal with |- context [parse_hping3 ?o ?n] =>
    destruct (parse_hping3_returns o n) as [r1 ->] end. run_bind.
  match goal with |- context [parse_hping3_rst ?o ?n] =>
    destruct (parse_hping3_rst_returns o n) as [r2 ->] end. run_bind.
  rewrite !lookup_insert_ne by discriminate.
  pose proof (parse_nmap_scan_time _ _ Hnmap) as [H | (q & H & Hq)].
  - left. now apply lookup_union_Some_l.
  - right. exists q. split; [now apply lookup_union_Some_l | exact Hq].
Qed.

Lemma collect_l7_response_time ip debug features :
  features !! "response_time" = Some (VStr "") →
  formattable (collect_l7 subprocess_run last_line_float ip debug features
               !! "response_time").
Proof.
  intros Hinit.
  set (f1 := match measure_curl_time subprocess_run last_line_float ip 5 with
             | Some response_time =>
                 if truthy (VFloat response_time)
                 then <["response_time" := VFloat response_time]> features
                 else features
             | None => features
             end).
  assert (H1 : formattable (f1 !! "response_time")).
  { subst f1. destruct (measure_curl_time _ _ _ _) as [t |]; [| now left].
    destruct (truthy _); [| now left]. right. exists t. apply lookup_insert_eq. }
  assert (Hrest : modifies_only {[ "header_modified" ]}
            (collect_l7 subprocess_run last_line_float ip debug features) f1).
  { unfold collect_l7. cbv zeta. fold f1.
    match goal with
    | |- context [if not_output ?o then f1 else update f1 (parse_curl ?o)] =>
        set (f2 := if not_output o then f1 else update f1 (parse_curl o))
    end.
    assert (H2 : modifies_only {[ "header_modified" ]} f2 f1).
    { subst f2. destruct (not_output _); [apply modifies_only_refl |].
      match goal with
      | |- context [parse_curl ?o] => rewrite <- (parse_curl_dom o)
      end.
      apply modifies_only_update. }
    set (f3 := <["header_modified" := _]> f2).
    assert (H3 : modifies_only {[ "header_modified" ]} f3 f1).
    { eapply modifies_only_weaken;
        [| eapply modifies_only_trans; [apply modifies_only_insert | exact H2]].
      set_solver. }
    destruct (item f3 "header_modified") as [| | [] |]; try exact H3.
    eapply modifies_only_weaken;
      [| eapply modifies_only_trans; [apply proxy_sweep_modifies | exact H3]].
    set_solver. }
  rewrite Hrest; [exact H1 |]. clear. set_solver.
Qed.
End Failures.

Lemma format_fields_returns (py_round : Q -> Z -> Q) fds features :
  NoDup fds.*1 →
  Forall (fun fd => formattable (features !! fd.1)) fds →
  ∃ f, format_fields py_round fds features = Ok f.
Proof.
  revert features. induction fds as [| fd fds IH]; intros features Hnd Hall;
    [simpl; eauto |].
  rewrite fmap_cons in Hnd. apply NoDup_cons in Hnd as [Hfresh Hnd].
  apply Forall_cons in Hall as [Hfd Hall]. cbn [format_fields].
  assert (Hstep : ∃ f1, format_field py_round features fd = Ok f1).
  { unfold format_field, item.
    destruct Hfd as [-> | [q ->]]; simpl; eauto. }
  destruct Hstep as [f1 Hf1]. rewrite Hf1. run_bind.
  apply IH; [exact Hnd |].
  apply Forall_forall. intros fd' Hin. cbv beta.
  rewrite (format_field_modifies _ _ _ _ Hf1 fd'.1).
  - rewrite Forall_forall in Hall. now apply Hall.
  - intros Heq%elem_of_singleton. apply Hfresh. rewrite <- Heq.
    apply list_elem_of_fmap. exists fd'. split; [reflexivity | exact Hin].
Qed.

(** X20. [collect_features] fails only when one of its parsers does: the
    exception is a [ValueError] raised by [parse_ping] on one of the two
    ping outputs or by [parse_nmap] on the scan output. Every other
    outcome of the probes, however garbled, yields a row. *)
Theorem collect_features_fails_only_in_a_parser
    (subprocess_run : list string -> Z -> run_outcome) (time_time : Z)
    (LABEL_MAP : gmap string Z) (py_round : Q -> Z -> Q)
    (last_line_float : string -> option Q) (ip : string) (debug : bool) (e : exn) :
  collect_features subprocess_run time_time LABEL_MAP py_round last_line_float
    ip debug = Raise e →
  e = ValueError
  ∧ (parse_ping (probe subprocess_run ["ping"; "-c"; "5"; ip] 10 debug)
     = Raise ValueError
     ∨ parse_ping (probe subprocess_run ["ping"; "-c"; "5"; "-s"; "1400"; ip]
                     10 debug) = Raise ValueError
     ∨ parse_nmap (probe subprocess_run
                     ["nmap"; "-sS"; "-p"; "1-1024"; ip; "-oN"; "-"] 120 debug)
       = Raise ValueError).
Proof.
  unfold collect_features. cbv zeta.
  pose proof (collect_l3_outcome subprocess_run ip debug
                (initial_features time_time ip)) as H3.
  destruct (collect_l3 _ _ _ _) as [f3 | e3] eqn:E3; run_bind.
  - destruct H3 as [Hlat Hloss].
    pose proof (collect_l4_outcome subprocess_run ip debug f3) as H4.
    destruct (collect_l4 _ _ _ _) as [f4 | e4] eqn:E4; run_bind.
    + pose proof (collect_l3_modifies _ _ _ _ _ E3) as M3.
      pose proof (collect_l4_modifies _ _ _ _ _ E4) as M4.
      pose proof (collect_l7_modifies subprocess_run last_line_float ip debug f4) as M7.
      destruct (collect_l4_values _ _ _ _ _ E4) as ((r1 & Hr1 & _) & (r2 & Hr2 & _) & _).
      destruct (format_fields_returns py_round decimal_formats
                  (collect_l7 subprocess_run last_line_float ip debug f4)) as [f5 ->].
      * vm_compute. repeat constructor; set_solver.
      * unfold decimal_formats.
        repeat first [apply List.Forall_cons | apply List.Forall_nil]; cbn [fst].
        -- rewrite M7, M4 by (clear; key_sets). exact (nonneg_formattable _ Hlat).
        -- rewrite M7 by (clear; key_sets). exact (nonneg_formattable _ H4).
        -- rewrite M7, M4 by (clear; key_sets). exact (nonneg_formattable _ Hloss).
        -- rewrite M7 by (clear; key_sets). right. eauto.
        -- rewrite M7 by (clear; key_sets). right. eauto.
        -- apply collect_l7_response_time.
           rewrite M4, M3 by (clear; key_sets). vm_compute. reflexivity.
      * run_bind. discriminate.
    + intros [= <-]. pose proof (parse_nmap_raise_inv _ _ H4) as ->. auto.
  - intros [= <-]. destruct H3 as [H | H];
      pose proof (parse_ping_raise_inv _ _ H) as [-> _]; auto.
Qed.

Lemma collect_features_fails_only_in_a_parser_witness :
  parse_ping (probe garbled_ping_answers ["ping"; "-c"; "5"; "10.0.0.1"] 10 false)
  = Raise ValueError
  ∨ parse_ping (probe garbled_ping_answers
                  ["ping"; "-c"; "5"; "-s"; "1400"; "10.0.0.1"] 10 false)
    = Raise ValueError
  ∨ parse_nmap (probe garbled_ping_answers
                  ["nmap"; "-sS"; "-p"; "1-1024"; "10.0.0.1"; "-oN"; "-"] 120 false)
    = Raise ValueError.
Proof.
  apply (collect_features_fails_only_in_a_parser garbled_ping_answers 1700000000 ∅
           (fun q _ => q) (fun _ => None) "10.0.0.1" false ValueError).
  vm_compute. reflexivity.
Defined.

(** ** Outputs without the markers the patterns look for *)











(** X23. In every returned row the latency, the packet loss and the scan
    time are empty or the rounding, to 3, 2 and 2 decimals, of a parsed
    figure that is not negative. *)
Theorem collect_features_figures_are_rounded
    (subprocess_run : list string -> Z -> run_outcome) (time_time : Z)
    (LABEL_MAP : gmap string Z) (py_round : Q -> Z -> Q)
    (last_line_float : string -> option Q) (ip : string) (debug : bool)
    (row : gmap string pyval) :
  collect_features subprocess_run time_time LABEL_MAP py_round last_line_float
    ip debug = Ok row →
  Forall (fun fd : string * Z =>
            row !! fd.1 = Some (VStr "")
            ∨ ∃ q, (0 <= q)%Q ∧ row !! fd.1 = Some (VFloat (py_round q fd.2)))
    [("avg_latency", 3%Z); ("packet_loss", 2%Z); ("scan_time", 2%Z)].
Proof.
  intros (f3 & f4 & f5 & E3 & E4 & E5 & ->)%collect_features_phases.
  pose proof (collect_l3_outcome subprocess_run ip debug
                (initial_features time_time ip)) as H3.
  rewrite E3 in H3. destruct H3 as [Hlat Hloss].
  pose proof (collect_l4_outcome subprocess_run ip debug f3) as H4.
  rewrite E4 in H4.
  pose proof (collect_l4_modifies _ _ _ _ _ E4) as M4.
  pose proof (collect_l7_modifies subprocess_run last_line_float ip debug f4) as M7.
  pose proof (apply_label_modifies LABEL_MAP ip f5) as ML.
  assert (Hnd : NoDup decimal_formats.*1) by (vm_compute; repeat constructor; set_solver).
  assert (Hshape : ∀ key decimals v,
    (key, decimals) ∈ decimal_formats → key ≠ "firewall_label" →
    collect_l7 subprocess_run last_line_float ip debug f4 !! key = v →
    empty_or_nonneg_float v →
    apply_label LABEL_MAP ip f5 !! key = Some (VStr "")
    ∨ ∃ q, (0 <= q)%Q
           ∧ apply_label LABEL_MAP ip f5 !! key = Some (VFloat (py_round q decimals))).
  { intros key decimals v Hin Hkey Hv Hnn.
    rewrite ML by set_solver.
    rewrite (format_fields_lookup py_round decimal_formats _ _ key decimals Hnd Hin E5).
    rewrite Hv. destruct Hnn as [-> | (q & -> & Hq)]; [now left |].
    right. exists q. auto. }
  repeat first [apply List.Forall_cons | apply List.Forall_nil]; cbn [fst snd].
  - eapply Hshape; [unfold decimal_formats; set_solver | discriminate | reflexivity |].
    rewrite M7, M4 by (clear; key_sets). exact Hlat.
  - eapply Hshape; [unfold decimal_formats; set_solver | discriminate | reflexivity |].
    rewrite M7, M4 by (clear; key_sets). exact Hloss.
  - eapply Hshape; [unfold decimal_formats; set_solver | discriminate | reflexivity |].
    rewrite M7 by (clear; key_sets). exact H4.
Qed.

Lemma collect_features_figures_are_rounded_witness :
  Forall (fun fd : string * Z =>
            sample_row !! fd.1 = Some (VStr "")
            ∨ ∃ q, (0 <= q)%Q ∧ sample_row !! fd.1 = Some (VFloat q))
    [("avg_latency", 3%Z); ("packet_loss", 2%Z); ("scan_time", 2%Z)].
Proof.
  exact (collect_features_figures_are_rounded only_ping_answers 1700000000
           {[ "10.0.0.1" := 2%Z ]} (fun q _ => q) (fun _ => None) "10.0.0.1" false
           sample_row sample_collect_returns).
Defined.
